(** * multidb: replica selection of [SlavesProcessor] and the routers

    A shallow embedding of [multidb/__init__.py].  The class-level
    attributes of [SlavesProcessor] (shared by every caller) form an
    explicit [State]; every method is a function in a small
    state-and-exception monad, so that a Python exception leaves behind
    exactly the mutations performed before it was raised.

    Time stamps ([datetime.datetime]) are integers counting microseconds;
    [datetime.timedelta] values are integers in the same unit.  Every call
    of [datetime.datetime.now()] is an explicit argument. *)

From Stdlib Require Import ZArith List String Bool Lia.
Import ListNotations.
Open Scope string_scope.
Open Scope Z_scope.

(** ** Time *)

Definition timedelta_seconds (n : Z) : Z := n * 1000000.
Definition timedelta_days (n : Z) : Z := n * 86400 * 1000000.

(** ** Django settings and module constants *)

(** [settings.SLAVE_DATABASES], [getattr(settings, 'RECONNECT_TIME', ...)]
    (absent = [None]) and the clock reading taken when the module is
    imported (line 41). *)
Record Settings : Type := mkSettings {
  settings_SLAVE_DATABASES : list string;
  settings_RECONNECT_TIME : option Z;
  import_now : Z
}.

(** Line 41. *)
Definition UNIMAGINEABLE_FUTURE (cfg : Settings) : Z :=
  import_now cfg + timedelta_days (365 * 1000).

(** Line 43. *)
Definition DEFAULT_DB_ALIAS : string := "default".

(** Line 44: [timedelta(seconds=60 * getattr(settings, 'RECONNECT_TIME', 60))]. *)
Definition RECONNECT_TIME (cfg : Settings) : Z :=
  timedelta_seconds
    (60 * match settings_RECONNECT_TIME cfg with
          | Some v => v
          | None => 60
          end).

(** ** Class state *)

(** One value of [slaves_statistics]: a dict with the key ['available']
    and, once the replica has been disabled, the key ['reconnect']. *)
Record Statistics : Type := mkStatistics {
  available : bool;
  reconnect : option Z
}.

(** [itertools.cycle(dbs)] with its cursor, or [itertools.repeat(x)].
    A cursor that points past the list stands for the exhausted iterator,
    which [itertools.cycle] is only over an empty list. *)
Inductive Slaves : Type :=
| Cycle (saved : list string) (cursor : nat)
| Repeat (x : string).

(** [slaves_statistics] is an association list in the iteration order
    of the dict: the keys never change after the class body has run, so
    [keys()] and [values()] always enumerate in this one order. *)
Record State : Type := mkState {
  slaves_statistics : list (string * Statistics);
  next_refresh_available_time : Z;
  slaves : Slaves
}.

Inductive Exn : Type := KeyError | StopIteration.

Inductive Result (A : Type) : Type :=
| Ok (a : A) (s : State)
| Raise (e : Exn) (s : State).
Arguments Ok {A} a s.
Arguments Raise {A} e s.

Definition M (A : Type) : Type := State -> Result A.

Definition ret {A} (a : A) : M A := fun s => Ok a s.
Definition raise {A} (e : Exn) : M A := fun s => Raise e s.
Definition bind {A B} (m : M A) (f : A -> M B) : M B :=
  fun s => match m s with
           | Ok a s' => f a s'
           | Raise e s' => Raise e s'
           end.
Definition gets {A} (f : State -> A) : M A := fun s => Ok (f s) s.
Definition modify (f : State -> State) : M unit := fun s => Ok tt (f s).

Notation "x <- m ;; k" := (bind m (fun x => k))
  (at level 61, m at next level, right associativity).
Notation "m ;;; k" := (bind m (fun _ => k))
  (at level 61, right associativity).

Definition state_of {A} (r : Result A) : State :=
  match r with
  | Ok _ s => s
  | Raise _ s => s
  end.

Definition set_statistics (d : list (string * Statistics)) (s : State) : State :=
  mkState d (next_refresh_available_time s) (slaves s).
Definition set_next_refresh (t : Z) (s : State) : State :=
  mkState (slaves_statistics s) t (slaves s).
Definition set_slaves (i : Slaves) (s : State) : State :=
  mkState (slaves_statistics s) (next_refresh_available_time s) i.

(** ** Dict operations *)

(** [d[k]], [None] standing for [KeyError]. *)
Fixpoint lookup (k : string) (d : list (string * Statistics)) : option Statistics :=
  match d with
  | [] => None
  | (k', v) :: tl => if String.eqb k k' then Some v else lookup k tl
  end.

(** In-place mutation of the dict stored under [k]. *)
Fixpoint update (k : string) (f : Statistics -> Statistics)
         (d : list (string * Statistics)) : list (string * Statistics) :=
  match d with
  | [] => []
  | (k', v) :: tl =>
      if String.eqb k k' then (k', f v) :: tl else (k', v) :: update k f tl
  end.

Definition keys (d : list (string * Statistics)) : list string := map fst d.

(** [dict((db, {'available': True}) for db in SLAVE_DATABASES)].  The
    registry is enumerated in the order in which the aliases first occur
    in the setting, a repeated alias being one key; CPython 2 enumerates
    a dict in an order fixed by the hashes of its keys, that is, in the
    order some arrangement of the setting would give here. *)
Fixpoint dict_of (dbs : list string) (d : list (string * Statistics))
  : list (string * Statistics) :=
  match dbs with
  | [] => d
  | db :: tl =>
      let v := mkStatistics true None in
      dict_of tl (match lookup db d with
                  | Some _ => update db (fun _ => v) d
                  | None => d ++ [(db, v)]
                  end)
  end.

(** ** SlavesProcessor *)

(** Lines 56-63.  Python 2: [filter] returns a list, empty lists are falsy. *)
Definition reset_slave_databases (cfg : Settings) : M unit :=
  fun s =>
    let to_repeat := Ok tt (set_slaves (Repeat DEFAULT_DB_ALIAS) s) in
    match settings_SLAVE_DATABASES cfg with
    | _ :: _ =>
        let dbs := filter (fun x => match lookup x (slaves_statistics s) with
                                    | Some v => available v
                                    | None => false
                                    end)
                          (keys (slaves_statistics s)) in
        match dbs with
        | _ :: _ => Ok tt (set_slaves (Cycle dbs 0) s)
        | [] => to_repeat
        end
    | [] => to_repeat
    end.

(** [cls.slaves.next()], line 71. *)
Definition slaves_next : M string :=
  fun s =>
    match slaves s with
    | Repeat x => Ok x s
    | Cycle saved cursor =>
        match nth_error saved cursor with
        | Some x =>
            let cursor' := if Nat.ltb (S cursor) (List.length saved)
                           then S cursor else O in
            Ok x (set_slaves (Cycle saved cursor') s)
        | None => Raise StopIteration s
        end
    end.

(** The loop of lines 86-91 over [values()]: the dicts are mutated in
    place, so when [statistics['reconnect']] raises [KeyError] the entries
    already visited keep their new contents.  Both branches of the [if]
    read [statistics['reconnect']] (the condition when the replica is
    unavailable, the [else] branch when it is available), so an entry
    without that key raises in either case.  The second component is
    [None] when the loop raised, and the final [next_refresh] otherwise. *)
Fixpoint refresh_loop (cfg : Settings) (current_time : Z)
         (d : list (string * Statistics)) (next_refresh : Z)
  : list (string * Statistics) * option Z :=
  match d with
  | [] => ([], Some next_refresh)
  | (k, v) :: tl =>
      match reconnect v with
      | None => (d, None)
      | Some r =>
          if negb (available v) && (r <? current_time) then
            let '(tl', res) := refresh_loop cfg current_time tl next_refresh in
            ((k, mkStatistics true (Some (UNIMAGINEABLE_FUTURE cfg))) :: tl', res)
          else
            let '(tl', res) := refresh_loop cfg current_time tl (Z.min next_refresh r) in
            ((k, v) :: tl', res)
      end
  end.

(** Lines 81-93; [current_time] is the clock reading of line 85. *)
Definition refresh_available (cfg : Settings) (current_time : Z) : M unit :=
  modify (set_next_refresh (UNIMAGINEABLE_FUTURE cfg)) ;;;
  next_refresh <- gets next_refresh_available_time ;;
  d <- gets slaves_statistics ;;
  match refresh_loop cfg current_time d next_refresh with
  | (d', None) => modify (set_statistics d') ;;; raise KeyError
  | (d', Some next_refresh') =>
      modify (set_statistics d') ;;;
      reset_slave_databases cfg ;;;
      modify (fun s => set_next_refresh
                         (Z.min (next_refresh_available_time s) next_refresh') s)
  end.

(** Lines 95-100; [now] is the clock reading of line 97.  Line 100 reads
    back the value stored by line 97, here [reconnect_at]. *)
Definition disable_connection (cfg : Settings) (now : Z) (alias : string) : M unit :=
  let reconnect_at := now + RECONNECT_TIME cfg in
  d <- gets slaves_statistics ;;
  match lookup alias d with
  | None => raise KeyError
  | Some _ =>
      modify (set_statistics
                (update alias (fun v => mkStatistics (available v) (Some reconnect_at)) d)) ;;;
      modify (fun s => set_statistics
                (update alias (fun v => mkStatistics false (reconnect v))
                        (slaves_statistics s)) s) ;;;
      reset_slave_databases cfg ;;;
      modify (fun s => set_next_refresh
                         (Z.min (next_refresh_available_time s) reconnect_at) s)
  end.

(** The three clock readings a call of [get_slave] can make: the guard of
    line 69, [refresh_available] (line 85) and [disable_connection]
    (line 97). *)
Record Clock : Type := mkClock {
  now_guard : Z;
  now_refresh : Z;
  now_disable : Z
}.

Definition at_time (t : Z) : Clock := mkClock t t t.

(** Lines 69-70. *)
Definition refresh_if_due (cfg : Settings) (clock : Clock) : M unit :=
  deadline <- gets next_refresh_available_time ;;
  if deadline <? now_guard clock
  then refresh_available cfg (now_refresh clock)
  else ret tt.

(** Lines 71-78.  [probe next] tells whether [connections[next].cursor()]
    returns ([true]) or raises any [Exception] ([false]). *)
Definition probe_candidate (cfg : Settings) (clock : Clock)
           (probe : string -> bool) : M string :=
  next <- slaves_next ;;
  if probe next then ret next
  else disable_connection cfg (now_disable clock) next ;;;
       ret DEFAULT_DB_ALIAS.

(** Lines 65-78. *)
Definition get_slave (cfg : Settings) (clock : Clock)
           (probe : string -> bool) : M string :=
  refresh_if_due cfg clock ;;;
  probe_candidate cfg clock probe.

(** The class body (lines 53-54) followed by line 102. *)
Definition initial (cfg : Settings) : State :=
  state_of (reset_slave_databases cfg
              (mkState (dict_of (settings_SLAVE_DATABASES cfg) [])
                       (UNIMAGINEABLE_FUTURE cfg)
                       (Repeat DEFAULT_DB_ALIAS))).

(** ** Routers *)

(** Lines 108-110. *)
Definition MasterSlaveRouter_db_for_read (cfg : Settings) (clock : Clock)
           (probe : string -> bool) : M string :=
  get_slave cfg clock probe.

(** Lines 112-114. *)
Definition MasterSlaveRouter_db_for_write : string := DEFAULT_DB_ALIAS.

(** Lines 120-122. *)
Definition MasterSlaveRouter_allow_syncdb (db : string) : bool :=
  String.eqb db DEFAULT_DB_ALIAS.

(** Lines 134-137.  [this_thread_is_pinned] is the value returned by
    [multidb.pinning.this_thread_is_pinned()], a query that does not
    touch [SlavesProcessor]. *)
Definition PinningMasterSlaveRouter_db_for_read (cfg : Settings)
           (this_thread_is_pinned : bool) (clock : Clock)
           (probe : string -> bool) : M string :=
  if this_thread_is_pinned then ret DEFAULT_DB_ALIAS
  else get_slave cfg clock probe.

(** Lines 116-118. *)
Definition MasterSlaveRouter_allow_relation {A B : Type} (obj1 : A) (obj2 : B) : bool :=
  true.

(** ** Module import: the test mirrors *)

(** [d.get(k)]-style lookup, [None] standing for [KeyError] on [d[k]]. *)
Fixpoint dict_get {A : Type} (k : string) (d : list (string * A)) : option A :=
  match d with
  | [] => None
  | (k', v) :: tl => if String.eqb k k' then Some v else dict_get k tl
  end.

(** [d[k] = v]: the value of an existing key is replaced in place, a new
    key goes last. *)
Fixpoint dict_set {A : Type} (k : string) (v : A) (d : list (string * A))
  : list (string * A) :=
  match d with
  | [] => [(k, v)]
  | (k', v') :: tl =>
      if String.eqb k k' then (k', v) :: tl else (k', v') :: dict_set k v tl
  end.

Section TestMirror.

(** The values a database configuration holds, and a Python string as
    such a value. *)
Variable Value : Type.
Variable str : string -> Value.

(** Lines 48-49, over [settings.DATABASES]: a dict of dicts.  The
    boolean tells whether the loop ran to its end ([true]) or
    [settings.DATABASES[db]] raised [KeyError] ([false], the entries
    set so far being kept).  Each alias is taken to have a dict of its
    own. *)
Fixpoint test_mirror_loop (dbs : list string)
         (DATABASES : list (string * list (string * Value)))
  : list (string * list (string * Value)) * bool :=
  match dbs with
  | [] => (DATABASES, true)
  | db :: tl =>
      match dict_get db DATABASES with
      | None => (DATABASES, false)
      | Some options =>
          test_mirror_loop tl
            (dict_set db (dict_set "TEST_MIRROR" (str DEFAULT_DB_ALIAS) options)
                      DATABASES)
      end
  end.

(** The entry of [db] names the primary as its test mirror. *)
Definition mirrors_primary (DATABASES : list (string * list (string * Value)))
           (db : string) : Prop :=
  exists options,
    dict_get db DATABASES = Some options /\
    dict_get "TEST_MIRROR" options = Some (str DEFAULT_DB_ALIAS).

End TestMirror.

(** ** Sequences of operations *)

Inductive Op : Type :=
| OpDisable (now : Z) (alias : string)
| OpRefresh (current_time : Z).

Definition exec (cfg : Settings) (op : Op) : M unit :=
  match op with
  | OpDisable now alias => disable_connection cfg now alias
  | OpRefresh current_time => refresh_available cfg current_time
  end.

(** Runs every operation in turn; an operation that raises leaves the
    state it had reached, and the next one starts from there. *)
Fixpoint run_ops (cfg : Settings) (ops : list Op) (s : State) : State :=
  match ops with
  | [] => s
  | op :: tl => run_ops cfg tl (state_of (exec cfg op s))
  end.

(** An operation is regular when it returns normally and, for
    [disable_connection], the alias names a replica that is available
    and the new reconnect time does not pass [UNIMAGINEABLE_FUTURE]. *)
Definition regular (cfg : Settings) (op : Op) (s : State) : bool :=
  match op with
  | OpDisable now alias =>
      match lookup alias (slaves_statistics s) with
      | Some v => available v && (now + RECONNECT_TIME cfg <=? UNIMAGINEABLE_FUTURE cfg)
      | None => false
      end
  | OpRefresh _ => true
  end.

Fixpoint run_regular (cfg : Settings) (ops : list Op) (s : State) : option State :=
  match ops with
  | [] => Some s
  | op :: tl =>
      if regular cfg op s then
        match exec cfg op s with
        | Ok _ s' => run_regular cfg tl s'
        | Raise _ _ => None
        end
      else None
  end.

Inductive Outcome : Type :=
| Returned (alias : string)
| Raised (e : Exn).

Definition outcome (r : Result string) : Outcome :=
  match r with
  | Ok a _ => Returned a
  | Raise e _ => Raised e
  end.

(** Successive calls of [get_slave], each with its clock readings and
    the probe results of that moment. *)
Fixpoint run_calls (cfg : Settings) (calls : list (Clock * (string -> bool)))
         (s : State) : list Outcome * State :=
  match calls with
  | [] => ([], s)
  | (clock, probe) :: tl =>
      let r := get_slave cfg clock probe s in
      let '(outs, s') := run_calls cfg tl (state_of r) in
      (outcome r :: outs, s')
  end.

(** What can happen to the class state: one of the two maintenance
    methods is called directly, or a caller asks for a replica. *)
Inductive Action : Type :=
| Internal (op : Op)
| Call (clock : Clock) (probe : string -> bool).

Definition perform (cfg : Settings) (a : Action) (s : State) : State :=
  match a with
  | Internal op => state_of (exec cfg op s)
  | Call clock probe => state_of (get_slave cfg clock probe s)
  end.

(** The state after a history of actions, raising ones included. *)
Fixpoint run_actions (cfg : Settings) (acts : list Action) (s : State) : State :=
  match acts with
  | [] => s
  | a :: tl => run_actions cfg tl (perform cfg a s)
  end.

(** ** The deadline as the specification words it *)

(** The reconnect times of the replicas that are currently unavailable. *)
Definition unavailable_deadlines (d : list (string * Statistics)) : list Z :=
  flat_map (fun kv => if available (snd kv) then []
                      else match reconnect (snd kv) with
                           | Some r => [r]
                           | None => []
                           end) d.

(** The minimum reconnect time over the unavailable replicas, or the
    sentinel when there is none. *)
Definition spec_NextRefreshDeadline (cfg : Settings)
           (d : list (string * Statistics)) : Z :=
  match unavailable_deadlines d with
  | [] => UNIMAGINEABLE_FUTURE cfg
  | r :: rs => fold_right Z.min r rs
  end.

(** ** Configurations used in the examples *)

Definition probe_all (_ : string) : bool := true.
Definition probe_none (_ : string) : bool := false.
Definition probe_except (down : string) (x : string) : bool :=
  negb (String.eqb x down).

(** One replica, backoff setting left at its default. *)
Definition cfg_one : Settings := mkSettings ["r1"] None 0.
(** Two replicas, [RECONNECT_TIME = 1], which makes the backoff 60 s. *)
Definition cfg_two : Settings := mkSettings ["r1"; "r2"] (Some 1) 0.
(** No replica configured. *)
Definition cfg_none : Settings := mkSettings [] None 0.

Definition sec (n : Z) : Z := timedelta_seconds n.

(** The same two replicas enumerated in the other order. *)
Definition cfg_two_swapped : Settings := mkSettings ["r2"; "r1"] (Some 1) 0.

(** No replica is available. *)
Definition none_available (d : list (string * Statistics)) : bool :=
  forallb (fun kv => negb (available (snd kv))) d.

(** A call made while no refresh is due in state [s] and whose probe of
    the primary succeeds. *)
Definition quiet_call (s : State) (c : Clock * (string -> bool)) : bool :=
  (now_guard (fst c) <=? next_refresh_available_time s) &&
  snd c DEFAULT_DB_ALIAS.

(** ** Auxiliary descriptions used in the statements *)

(** The iterator [reset_slave_databases] installs for a given registry. *)
Definition rebuilt_slaves (cfg : Settings) (d : list (string * Statistics)) : Slaves :=
  slaves (state_of (reset_slave_databases cfg
                      (mkState d 0 (Repeat DEFAULT_DB_ALIAS)))).

(** Whether [refresh_available] re-admits an entry at [current_time]. *)
Definition readmitted (current_time : Z) (v : Statistics) : bool :=
  negb (available v) &&
  match reconnect v with
  | Some r => r <? current_time
  | None => false
  end.

Definition refresh_entry (cfg : Settings) (current_time : Z)
           (kv : string * Statistics) : string * Statistics :=
  if readmitted current_time (snd kv)
  then (fst kv, mkStatistics true (Some (UNIMAGINEABLE_FUTURE cfg)))
  else kv.

(** The recorded reconnect times of the entries a refresh keeps as they are. *)
Definition kept_deadlines (current_time : Z) (d : list (string * Statistics)) : list Z :=
  flat_map (fun kv => if readmitted current_time (snd kv) then []
                      else match reconnect (snd kv) with
                           | Some r => [r]
                           | None => []
                           end) d.

(** All clock readings of a call lie strictly inside the backoff window
    opened by a [disable_connection] at [now]. *)
Definition inside (cfg : Settings) (now t : Z) : bool :=
  (now <? t) && (t <? now + RECONNECT_TIME cfg).

Definition in_window (cfg : Settings) (now : Z) (clock : Clock) : bool :=
  inside cfg now (now_guard clock) &&
  inside cfg now (now_refresh clock) &&
  inside cfg now (now_disable clock).

(** The iterator never yields [id]. *)
Definition cycle_avoids (id : string) (i : Slaves) : Prop :=
  match i with
  | Cycle saved _ => ~ In id saved
  | Repeat x => x <> id
  end.

(** [id] is unavailable with a reconnect time of at least [until], and
    the iterator does not hold it. *)
Definition excluded (until : Z) (id : string) (s : State) : Prop :=
  (exists v r, lookup id (slaves_statistics s) = Some v /\
               available v = false /\ reconnect v = Some r /\ until <= r) /\
  cycle_avoids id (slaves s).

(** The iterator repeats the primary alias, or cycles over a non-empty
    list of replicas that are all available. *)
Definition iterator_sound (d : list (string * Statistics)) (i : Slaves) : Prop :=
  match i with
  | Repeat x => x = DEFAULT_DB_ALIAS
  | Cycle saved _ =>
      saved <> [] /\
      forall x, In x saved ->
                exists v, lookup x d = Some v /\ available v = true
  end.

(** An available replica has no reconnect time or the sentinel. *)
Definition available_ok (cfg : Settings) (v : Statistics) : Prop :=
  available v = true ->
  reconnect v = None \/ reconnect v = Some (UNIMAGINEABLE_FUTURE cfg).

(** An unavailable replica has a reconnect time, not after the sentinel. *)
Definition unavailable_ok (cfg : Settings) (v : Statistics) : Prop :=
  available v = false ->
  exists r, reconnect v = Some r /\ r <= UNIMAGINEABLE_FUTURE cfg.

(** The deadline computed by structural recursion on the registry. *)
Fixpoint deadline_min (cfg : Settings) (d : list (string * Statistics)) : Z :=
  match d with
  | [] => UNIMAGINEABLE_FUTURE cfg
  | (_, v) :: tl =>
      if available v then deadline_min cfg tl
      else match reconnect v with
           | Some r => Z.min r (deadline_min cfg tl)
           | None => deadline_min cfg tl
           end
  end.

(** A property of every value of the registry. *)
Definition registry_ok (P : Statistics -> Prop) (d : list (string * Statistics)) : Prop :=
  Forall (fun kv => P (snd kv)) d.

(** The state invariant behind the deadline: available replicas carry
    no deadline, unavailable ones a deadline not after the sentinel, and
    the class attribute holds the minimum. *)
Definition well_formed (cfg : Settings) (s : State) : Prop :=
  registry_ok (available_ok cfg) (slaves_statistics s) /\
  registry_ok (unavailable_ok cfg) (slaves_statistics s) /\
  next_refresh_available_time s = deadline_min cfg (slaves_statistics s).

(** Every replica has a ['reconnect'] entry. *)
Definition all_recorded (d : list (string * Statistics)) : bool :=
  forallb (fun kv => match reconnect (snd kv) with
                     | Some _ => true
                     | None => false
                     end) d.

(** The cursor of a cycling iterator points into its saved list. *)
Definition iterator_valid (i : Slaves) : Prop :=
  match i with
  | Cycle saved cursor => (cursor < List.length saved)%nat
  | Repeat _ => True
  end.

(** An unavailable replica has a ['reconnect'] entry. *)
Definition recorded_if_unavailable (v : Statistics) : Prop :=
  available v = false -> exists r, reconnect v = Some r.

(** A call made while no refresh is due (the deadline being [deadline])
    and for which the probe of every replica in [saved] succeeds. *)
Definition healthy_call (deadline : Z) (saved : list string)
           (c : Clock * (string -> bool)) : bool :=
  (now_guard (fst c) <=? deadline) && forallb (snd c) saved.

(** [n] successive elements of [saved], taken circularly from [cursor]. *)
Definition rotation (saved : list string) (cursor n : nat) : list Outcome :=
  map (fun i => Returned (nth ((cursor + i) mod List.length saved) saved
                              DEFAULT_DB_ALIAS))
      (seq 0 n).

(** Successive reads through [PinningMasterSlaveRouter]: each comes
    with the pin flag of its thread, its clock readings and the probe
    results of that moment. *)
Fixpoint run_reads (cfg : Settings)
         (reads : list (bool * (Clock * (string -> bool)))) (s : State)
  : list Outcome * State :=
  match reads with
  | [] => ([], s)
  | (pinned, (clock, probe)) :: tl =>
      let r := PinningMasterSlaveRouter_db_for_read cfg pinned clock probe s in
      let '(outs, s') := run_reads cfg tl (state_of r) in
      (outcome r :: outs, s')
  end.

(** The reads of threads that are not pinned, as calls of [get_slave]. *)
Definition unpinned (reads : list (bool * (Clock * (string -> bool))))
  : list (Clock * (string -> bool)) :=
  map snd (filter (fun r => negb (fst r)) reads).

(** The outcomes [outs] of the unpinned reads put back among the pinned
    ones, which all get the primary alias. *)
Fixpoint with_pinned (reads : list (bool * (Clock * (string -> bool))))
         (outs : list Outcome) : list Outcome :=
  match reads with
  | [] => []
  | (true, _) :: tl => Returned DEFAULT_DB_ALIAS :: with_pinned tl outs
  | (false, _) :: tl =>
      match outs with
      | o :: outs' => o :: with_pinned tl outs'
      | [] => []
      end
  end.

(** * Properties *)

(** ** Dict lemmas *)

Lemma lookup_update_same k f d v :
  lookup k d = Some v -> lookup k (update k f d) = Some (f v).
Proof.
  induction d as [|[k' v'] tl IH]; simpl; [discriminate|].
  destruct (String.eqb k k') eqn:E; simpl; rewrite E.
  - intros H; injection H as ->; reflexivity.
  - exact IH.
Qed.

Lemma lookup_update_other k k' f d :
  k' <> k -> lookup k' (update k f d) = lookup k' d.
Proof.
  intros Hne. induction d as [|[k0 v0] tl IH]; simpl; [reflexivity|].
  destruct (String.eqb k k0) eqn:E; simpl.
  - apply String.eqb_eq in E; subst k0.
    apply String.eqb_neq in Hne; rewrite Hne; reflexivity.
  - destruct (String.eqb k' k0); [reflexivity | exact IH].
Qed.

Lemma update_ext k f g d :
  (forall v, f v = g v) -> update k f d = update k g d.
Proof.
  intros Hfg. induction d as [|[k' v'] tl IH]; simpl; [reflexivity|].
  destruct (String.eqb k k'); [rewrite Hfg | rewrite IH]; reflexivity.
Qed.

Lemma update_update k f g d :
  update k g (update k f d) = update k (fun v => g (f v)) d.
Proof.
  induction d as [|[k' v'] tl IH]; simpl; [reflexivity|].
  destruct (String.eqb k k') eqn:E; simpl; rewrite E; [reflexivity|].
  rewrite IH; reflexivity.
Qed.

Lemma keys_update k f d : keys (update k f d) = keys d.
Proof.
  unfold keys. induction d as [|[k' v'] tl IH]; simpl; [reflexivity|].
  destruct (String.eqb k k'); simpl; [reflexivity | rewrite IH; reflexivity].
Qed.

Lemma lookup_In k d v : lookup k d = Some v -> In (k, v) d.
Proof.
  induction d as [|[k' v'] tl IH]; simpl; [discriminate|].
  destruct (String.eqb k k') eqn:E.
  - apply String.eqb_eq in E. intros H; injection H as ->. subst. now left.
  - intros H; right; exact (IH H).
Qed.

Lemma lookup_In_keys k d v : lookup k d = Some v -> In k (keys d).
Proof.
  intros H. apply lookup_In in H. unfold keys.
  change k with (fst (k, v)). now apply in_map.
Qed.

(** ** The methods as equations *)

Lemma reset_slave_databases_eq cfg s :
  reset_slave_databases cfg s =
  Ok tt (set_slaves (rebuilt_slaves cfg (slaves_statistics s)) s).
Proof.
  unfold rebuilt_slaves, reset_slave_databases; simpl.
  destruct (settings_SLAVE_DATABASES cfg); [reflexivity|].
  destruct (filter _ _); reflexivity.
Qed.

Lemma refresh_available_eq cfg current_time s :
  refresh_available cfg current_time s =
  match refresh_loop cfg current_time (slaves_statistics s)
                     (UNIMAGINEABLE_FUTURE cfg) with
  | (d', None) => Raise KeyError (mkState d' (UNIMAGINEABLE_FUTURE cfg) (slaves s))
  | (d', Some next_refresh) =>
      Ok tt (mkState d'
                     (Z.min (UNIMAGINEABLE_FUTURE cfg) next_refresh)
                     (rebuilt_slaves cfg d'))
  end.
Proof.
  unfold refresh_available, bind, modify, gets, raise; simpl.
  destruct (refresh_loop _ _ _ _) as [d' [nr|]]; simpl; [|reflexivity].
  rewrite reset_slave_databases_eq; reflexivity.
Qed.

Lemma disable_connection_eq cfg now alias s :
  disable_connection cfg now alias s =
  match lookup alias (slaves_statistics s) with
  | None => Raise KeyError s
  | Some _ =>
      let d' := update alias
                  (fun _ => mkStatistics false (Some (now + RECONNECT_TIME cfg)))
                  (slaves_statistics s) in
      Ok tt (mkState d'
                     (Z.min (next_refresh_available_time s) (now + RECONNECT_TIME cfg))
                     (rebuilt_slaves cfg d'))
  end.
Proof.
  unfold disable_connection, bind, modify, gets, raise; simpl.
  destruct (lookup alias (slaves_statistics s)); [|reflexivity]; simpl.
  rewrite reset_slave_databases_eq; simpl.
  rewrite update_update.
  rewrite (update_ext alias _
             (fun _ => mkStatistics false (Some (now + RECONNECT_TIME cfg))));
    [reflexivity | intros v; reflexivity].
Qed.

(** ** Backoff of [disable_connection] *)

(** C5 (as the code has it): with the [RECONNECT_TIME] setting absent,
    [disable_connection] on a configured replica returns normally and
    leaves that replica unavailable with reconnect time [now] plus 3600
    seconds: the setting counts minutes and its default is 60. *)
Theorem disable_connection_default_backoff cfg now alias s v :
  settings_RECONNECT_TIME cfg = None ->
  lookup alias (slaves_statistics s) = Some v ->
  exists s',
    disable_connection cfg now alias s = Ok tt s' /\
    lookup alias (slaves_statistics s') =
      Some (mkStatistics false (Some (now + timedelta_seconds 3600))).
Proof.
  intros Hdefault Hv.
  rewrite disable_connection_eq, Hv; cbv zeta.
  eexists; split; [reflexivity|]; simpl.
  rewrite (lookup_update_same _ _ _ _ Hv).
  unfold RECONNECT_TIME; rewrite Hdefault; reflexivity.
Qed.

Lemma disable_connection_default_backoff_witness :
  settings_RECONNECT_TIME cfg_one = None /\
  lookup "r1" (slaves_statistics (initial cfg_one)) = Some (mkStatistics true None) /\
  exists s',
    disable_connection cfg_one 0 "r1" (initial cfg_one) = Ok tt s' /\
    lookup "r1" (slaves_statistics s') =
      Some (mkStatistics false (Some (0 + timedelta_seconds 3600))).
Proof.
  split; [reflexivity|]. split; [reflexivity|].
  apply (disable_connection_default_backoff cfg_one 0 "r1" (initial cfg_one)
           (mkStatistics true None)); reflexivity.
Defined.

(** C5 as stated fails: under the default setting a replica disabled at
    time 0 gets reconnect time 3600 s, not 60 s. *)
Lemma default_backoff_is_not_60_seconds :
  settings_RECONNECT_TIME cfg_one = None /\
  lookup "r1" (slaves_statistics
                 (state_of (disable_connection cfg_one 0 "r1" (initial cfg_one)))) =
    Some (mkStatistics false (Some (timedelta_seconds 3600))) /\
  timedelta_seconds 3600 <> 0 + timedelta_seconds 60.
Proof. repeat split; vm_compute; discriminate. Qed.

(** ** Routers *)

(** C8: a pinned context reads from the primary and leaves the class
    state alone; any other context gets exactly the result (value,
    exception and state) of [get_slave]. *)
Theorem pinning_router_db_for_read cfg clock probe s :
  PinningMasterSlaveRouter_db_for_read cfg true clock probe s =
    Ok DEFAULT_DB_ALIAS s /\
  PinningMasterSlaveRouter_db_for_read cfg false clock probe s =
    get_slave cfg clock probe s.
Proof. split; reflexivity. Qed.

(** ** The degraded iterator *)

Lemma get_slave_after_refresh cfg clock probe s s' :
  refresh_if_due cfg clock s = Ok tt s' ->
  get_slave cfg clock probe s = probe_candidate cfg clock probe s'.
Proof. intros H. unfold get_slave, bind. rewrite H. reflexivity. Qed.

Lemma get_slave_refresh_raises cfg clock probe s e s' :
  refresh_if_due cfg clock s = Raise e s' ->
  get_slave cfg clock probe s = Raise e s'.
Proof. intros H. unfold get_slave, bind. rewrite H. reflexivity. Qed.

Lemma refresh_if_due_not_due cfg clock s :
  now_guard clock <= next_refresh_available_time s ->
  refresh_if_due cfg clock s = Ok tt s.
Proof.
  intros H. unfold refresh_if_due, bind, gets, ret.
  destruct (Z.ltb_spec (next_refresh_available_time s) (now_guard clock)); [lia|].
  reflexivity.
Qed.

Lemma refresh_if_due_due cfg clock s :
  next_refresh_available_time s < now_guard clock ->
  refresh_if_due cfg clock s = refresh_available cfg (now_refresh clock) s.
Proof.
  intros H. unfold refresh_if_due, bind, gets, ret.
  destruct (Z.ltb_spec (next_refresh_available_time s) (now_guard clock)); [|lia].
  reflexivity.
Qed.

(** C9: once the iterator repeats the primary alias, [get_slave] still
    probes the primary; when that probe fails and the primary is not a
    key of [slaves_statistics], the call raises [KeyError] (from
    [disable_connection]) and returns no alias. *)
Theorem degraded_get_slave_probes_primary cfg clock probe s s' :
  refresh_if_due cfg clock s = Ok tt s' ->
  slaves s' = Repeat DEFAULT_DB_ALIAS ->
  lookup DEFAULT_DB_ALIAS (slaves_statistics s') = None ->
  get_slave cfg clock probe s =
    if probe DEFAULT_DB_ALIAS then Ok DEFAULT_DB_ALIAS s' else Raise KeyError s'.
Proof.
  intros Hrefresh Hrepeat Hkey.
  rewrite (get_slave_after_refresh _ _ _ _ _ Hrefresh).
  unfold probe_candidate, bind, slaves_next; rewrite Hrepeat.
  destruct (probe DEFAULT_DB_ALIAS); [reflexivity|].
  rewrite disable_connection_eq, Hkey; reflexivity.
Qed.

Lemma degraded_get_slave_probes_primary_witness :
  refresh_if_due cfg_none (at_time 0) (initial cfg_none) = Ok tt (initial cfg_none) /\
  slaves (initial cfg_none) = Repeat DEFAULT_DB_ALIAS /\
  lookup DEFAULT_DB_ALIAS (slaves_statistics (initial cfg_none)) = None /\
  get_slave cfg_none (at_time 0) probe_none (initial cfg_none) =
    Raise KeyError (initial cfg_none).
Proof.
  split; [reflexivity|]. split; [reflexivity|]. split; [reflexivity|].
  apply (degraded_get_slave_probes_primary cfg_none (at_time 0) probe_none
           (initial cfg_none) (initial cfg_none)); reflexivity.
Defined.

(** ** Probe failures *)

(** When the candidate whose probe fails is a key of [slaves_statistics],
    the call returns the primary alias and the state is the one
    [disable_connection] leaves. *)
Lemma probe_failure_on_replica cfg clock probe s next s1 v :
  slaves_next s = Ok next s1 ->
  probe next = false ->
  lookup next (slaves_statistics s1) = Some v ->
  exists s2,
    disable_connection cfg (now_disable clock) next s1 = Ok tt s2 /\
    probe_candidate cfg clock probe s = Ok DEFAULT_DB_ALIAS s2 /\
    lookup next (slaves_statistics s2) =
      Some (mkStatistics false (Some (now_disable clock + RECONNECT_TIME cfg))).
Proof.
  intros Hnext Hprobe Hv.
  unfold probe_candidate, bind; rewrite Hnext, Hprobe.
  rewrite disable_connection_eq, Hv; cbv zeta.
  eexists; split; [reflexivity|]; split; [reflexivity|]; simpl.
  apply lookup_update_same with (1 := Hv).
Qed.

(** C6 fails on the code: with no replica configured the iterator
    yields the primary alias, and a failed probe of the primary makes
    [get_slave] raise [KeyError] instead of returning the primary. *)
Theorem probe_failure_of_primary_raises :
  get_slave cfg_none (at_time 0) probe_none (initial cfg_none) =
    Raise KeyError (initial cfg_none) /\
  outcome (get_slave cfg_none (at_time 0) probe_none (initial cfg_none)) <>
    Returned DEFAULT_DB_ALIAS.
Proof. split; [reflexivity | vm_compute; discriminate]. Qed.

(** ** Scenario A *)

(** C7 fails on the code: replicas r1 and r2, backoff 60 s.  The call at
    t = 0 finds r1 down, disables it with reconnect time 60 s and returns
    the primary; the call at t = 10 s returns r2; the call at t = 61 s
    runs the refresh, which raises [KeyError] on r2 (never disabled, so
    without a reconnect time): no alias is returned. *)
Theorem scenario_A_refresh_raises :
  let first := get_slave cfg_two (at_time 0) (probe_except "r1") (initial cfg_two) in
  let second := get_slave cfg_two (at_time (sec 10)) probe_all (state_of first) in
  let third := get_slave cfg_two (at_time (sec 61)) probe_all (state_of second) in
  outcome first = Returned DEFAULT_DB_ALIAS /\
  lookup "r1" (slaves_statistics (state_of first)) =
    Some (mkStatistics false (Some (sec 60))) /\
  outcome second = Returned "r2" /\
  outcome third = Raised KeyError.
Proof. repeat split. Qed.

(** With the dict enumerating r2 first, one earlier call draws r2; the
    rest of the scenario is the same and ends in the same [KeyError]. *)
Lemma scenario_A_other_order :
  map outcome
      (let zeroth := get_slave cfg_two_swapped (at_time 0) probe_all
                               (initial cfg_two_swapped) in
       let first := get_slave cfg_two_swapped (at_time 0) (probe_except "r1")
                              (state_of zeroth) in
       let second := get_slave cfg_two_swapped (at_time (sec 10)) probe_all
                               (state_of first) in
       let third := get_slave cfg_two_swapped (at_time (sec 61)) probe_all
                              (state_of second) in
       [zeroth; first; second; third]) =
  [Returned "r2"; Returned DEFAULT_DB_ALIAS; Returned "r2"; Raised KeyError].
Proof. reflexivity. Qed.

(** ** Total outage *)

Lemma filter_none {A} (f : A -> bool) l :
  (forall x, In x l -> f x = false) -> filter f l = [].
Proof.
  induction l as [|a l IH]; simpl; intros H; [reflexivity|].
  rewrite (H a (or_introl eq_refl)). apply IH. intros x Hx. apply H. now right.
Qed.

Lemma rebuilt_slaves_none_available cfg d :
  none_available d = true ->
  rebuilt_slaves cfg d = Repeat DEFAULT_DB_ALIAS.
Proof.
  intros Hnone. unfold rebuilt_slaves, reset_slave_databases; simpl.
  destruct (settings_SLAVE_DATABASES cfg); [reflexivity|].
  rewrite filter_none; [reflexivity|].
  intros x _. destruct (lookup x d) as [v|] eqn:Hx; [|reflexivity].
  apply lookup_In in Hx.
  unfold none_available in Hnone. rewrite forallb_forall in Hnone.
  specialize (Hnone _ Hx); simpl in Hnone.
  now destruct (available v).
Qed.

Lemma get_slave_quiet cfg s c :
  slaves s = Repeat DEFAULT_DB_ALIAS ->
  quiet_call s c = true ->
  get_slave cfg (fst c) (snd c) s = Ok DEFAULT_DB_ALIAS s.
Proof.
  intros Hrepeat Hquiet. unfold quiet_call in Hquiet.
  apply andb_prop in Hquiet as [Hguard Hprobe]. apply Z.leb_le in Hguard.
  rewrite (get_slave_after_refresh _ _ _ _ _ (refresh_if_due_not_due cfg _ _ Hguard)).
  unfold probe_candidate, bind, slaves_next; rewrite Hrepeat, Hprobe.
  reflexivity.
Qed.

Lemma rebuilt_slaves_sound cfg d : iterator_sound d (rebuilt_slaves cfg d).
Proof.
  unfold rebuilt_slaves, reset_slave_databases; simpl.
  destruct (settings_SLAVE_DATABASES cfg) as [|db dbs]; [reflexivity|].
  assert (Hall : forall y,
             In y (filter (fun x => match lookup x d with
                                    | Some v => available v
                                    | None => false
                                    end) (keys d)) ->
             exists v, lookup y d = Some v /\ available v = true).
  { intros y Hy. apply filter_In in Hy as [_ Hy].
    destruct (lookup y d) as [v|]; [|discriminate].
    exists v; auto. }
  destruct (filter _ _) as [|x saved]; [reflexivity|].
  split; [discriminate | exact Hall].
Qed.

Lemma refresh_loop_still_available cfg current_time x v d next_refresh :
  lookup x d = Some v ->
  available v = true ->
  exists v', lookup x (fst (refresh_loop cfg current_time d next_refresh)) = Some v' /\
             available v' = true.
Proof.
  intros Hv Hav. revert next_refresh Hv.
  induction d as [|[k w] tl IH]; intros next_refresh Hv; [discriminate|].
  simpl in Hv. simpl.
  destruct (reconnect w) as [rw|] eqn:Hrw.
  2:{ simpl. exists v. split; [exact Hv | exact Hav]. }
  destruct (negb (available w) && (rw <? current_time)) eqn:Hcond.
  - destruct (refresh_loop cfg current_time tl next_refresh) as [tl' res] eqn:Htl.
    simpl. destruct (String.eqb x k).
    + eexists; split; reflexivity.
    + specialize (IH next_refresh Hv). rewrite Htl in IH. exact IH.
  - destruct (refresh_loop cfg current_time tl (Z.min next_refresh rw))
      as [tl' res] eqn:Htl.
    simpl. destruct (String.eqb x k).
    + exists v. split; [exact Hv | exact Hav].
    + specialize (IH (Z.min next_refresh rw) Hv). rewrite Htl in IH. exact IH.
Qed.

Lemma exec_iterator_sound cfg op s :
  iterator_sound (slaves_statistics s) (slaves s) ->
  iterator_sound (slaves_statistics (state_of (exec cfg op s)))
                 (slaves (state_of (exec cfg op s))).
Proof.
  intros Hs. destruct op as [now alias|current_time]; simpl.
  - rewrite disable_connection_eq.
    destruct (lookup alias (slaves_statistics s)); simpl;
      [apply rebuilt_slaves_sound | exact Hs].
  - rewrite refresh_available_eq.
    destruct (refresh_loop cfg current_time (slaves_statistics s)
                (UNIMAGINEABLE_FUTURE cfg)) as [d' [nr|]] eqn:Hloop; simpl;
      [apply rebuilt_slaves_sound|].
    destruct (slaves s) as [saved cursor|x]; simpl in *; [|exact Hs].
    destruct Hs as [Hne Hall]. split; [exact Hne|].
    intros x Hx. destruct (Hall x Hx) as (v & Hv & Hav).
    pose proof (refresh_loop_still_available cfg current_time x v _
                  (UNIMAGINEABLE_FUTURE cfg) Hv Hav) as Hstill.
    rewrite Hloop in Hstill. exact Hstill.
Qed.

Lemma refresh_if_due_as_op cfg clock s :
  refresh_if_due cfg clock s = Ok tt s \/
  refresh_if_due cfg clock s = exec cfg (OpRefresh (now_refresh clock)) s.
Proof.
  unfold refresh_if_due, bind, gets, ret.
  destruct (next_refresh_available_time s <? now_guard clock); [right|left];
    reflexivity.
Qed.

(** What [probe_candidate] does to the state: it moves the cursor, and
    then possibly runs [disable_connection] on the candidate. *)
Lemma probe_candidate_as_op cfg clock probe s :
  exists s1,
    slaves_statistics s1 = slaves_statistics s /\
    next_refresh_available_time s1 = next_refresh_available_time s /\
    (forall d, iterator_sound d (slaves s) -> iterator_sound d (slaves s1)) /\
    (state_of (probe_candidate cfg clock probe s) = s1 \/
     exists next,
       state_of (probe_candidate cfg clock probe s) =
       state_of (exec cfg (OpDisable (now_disable clock) next) s1)).
Proof.
  unfold probe_candidate, bind, slaves_next.
  destruct (slaves s) as [saved cursor|x] eqn:Hslaves.
  - destruct (nth_error saved cursor) as [next|]; simpl.
    + eexists. split; [|split; [|split]].
      4:{ destruct (probe next); simpl; [left; reflexivity|].
          right. exists next. simpl.
          destruct (disable_connection cfg (now_disable clock) next _);
            reflexivity. }
      all: try reflexivity.
      simpl. intros d Hd. exact Hd.
    + exists s. repeat split; auto. intros d Hd. rewrite Hslaves. exact Hd.
  - exists s. split; [reflexivity|]. split; [reflexivity|].
    split; [intros d Hd; rewrite Hslaves; exact Hd|].
    destruct (probe x); simpl; [left; reflexivity|].
    right. exists x. simpl.
    destruct (disable_connection cfg (now_disable clock) x s); reflexivity.
Qed.

Lemma get_slave_state cfg clock probe s :
  exists s0,
    (s0 = s \/ s0 = state_of (exec cfg (OpRefresh (now_refresh clock)) s)) /\
    (state_of (get_slave cfg clock probe s) = s0 \/
     state_of (get_slave cfg clock probe s) =
       state_of (probe_candidate cfg clock probe s0)).
Proof.
  unfold get_slave, bind.
  destruct (refresh_if_due_as_op cfg clock s) as [H|H]; rewrite H.
  - exists s. split; [now left | now right].
  - exists (state_of (exec cfg (OpRefresh (now_refresh clock)) s)).
    split; [now right|].
    destruct (exec cfg (OpRefresh (now_refresh clock)) s) as [[] s'|e s'];
      simpl; [now right | now left].
Qed.

Lemma perform_iterator_sound cfg a s :
  iterator_sound (slaves_statistics s) (slaves s) ->
  iterator_sound (slaves_statistics (perform cfg a s)) (slaves (perform cfg a s)).
Proof.
  intros Hs. destruct a as [op|clock probe]; simpl;
    [now apply exec_iterator_sound|].
  destruct (get_slave_state cfg clock probe s) as (s0 & Hs0 & Hfinal).
  assert (Hsound0 : iterator_sound (slaves_statistics s0) (slaves s0))
    by (destruct Hs0 as [->| ->]; [exact Hs | now apply exec_iterator_sound]).
  destruct Hfinal as [-> | ->]; [exact Hsound0|].
  destruct (probe_candidate_as_op cfg clock probe s0)
    as (s1 & Hstat & _ & Hiter & Hfinal).
  assert (Hsound1 : iterator_sound (slaves_statistics s1) (slaves s1))
    by (rewrite Hstat; apply Hiter; exact Hsound0).
  destruct Hfinal as [-> | [next ->]];
    [exact Hsound1 | now apply exec_iterator_sound].
Qed.

Lemma run_actions_iterator_sound cfg acts :
  let s := run_actions cfg acts (initial cfg) in
  iterator_sound (slaves_statistics s) (slaves s).
Proof.
  cbv zeta.
  assert (Hinit : iterator_sound (slaves_statistics (initial cfg))
                                 (slaves (initial cfg))).
  { unfold initial. rewrite reset_slave_databases_eq. simpl.
    apply rebuilt_slaves_sound. }
  revert Hinit. generalize (initial cfg).
  induction acts as [|a tl IH]; intros s Hs; simpl; [exact Hs|].
  apply IH. now apply perform_iterator_sound.
Qed.

Lemma iterator_sound_none_available d i :
  iterator_sound d i ->
  none_available d = true ->
  i = Repeat DEFAULT_DB_ALIAS.
Proof.
  intros Hs Hnone. destruct i as [saved cursor|x]; simpl in Hs; [|now subst].
  destruct Hs as [Hne Hall]. destruct saved as [|x saved]; [congruence|].
  destruct (Hall x (or_introl eq_refl)) as (v & Hv & Hav).
  apply lookup_In in Hv.
  unfold none_available in Hnone. rewrite forallb_forall in Hnone.
  specialize (Hnone _ Hv). simpl in Hnone. rewrite Hav in Hnone. discriminate.
Qed.

(** C1 (as the code has it): in any state reached from the initial one
    (by calls of [get_slave], [disable_connection] and
    [refresh_available], raising ones included) in which no replica is
    available, any number of consecutive [get_slave] calls made while no
    refresh is due and whose probe of the primary succeeds all return
    the primary alias, none raises, and the state is left as it was. *)
Theorem total_outage_fallback cfg history calls :
  let s := run_actions cfg history (initial cfg) in
  none_available (slaves_statistics s) = true ->
  forallb (quiet_call s) calls = true ->
  run_calls cfg calls s = (map (fun _ => Returned DEFAULT_DB_ALIAS) calls, s).
Proof.
  intros s Hnone Hcalls.
  pose proof (iterator_sound_none_available _ _
                (run_actions_iterator_sound cfg history) Hnone) as Hrepeat.
  fold s in Hrepeat.
  induction calls as [|[clock probe] tl IH]; simpl; [reflexivity|].
  simpl in Hcalls. apply andb_prop in Hcalls as [Hc Htl].
  pose proof (get_slave_quiet cfg s (clock, probe) Hrepeat Hc) as Hcall.
  simpl in Hcall. rewrite Hcall; simpl.
  rewrite (IH Htl). reflexivity.
Qed.

Lemma total_outage_fallback_witness :
  let history := [Call (at_time 0) probe_none] in
  let s := run_actions cfg_one history (initial cfg_one) in
  let calls := [(at_time (sec 1), probe_all); (at_time (sec 1800), probe_all);
                (at_time (sec 3600), probe_except "r1")] in
  none_available (slaves_statistics s) = true /\
  forallb (quiet_call s) calls = true /\
  run_calls cfg_one calls s = (map (fun _ => Returned DEFAULT_DB_ALIAS) calls, s).
Proof.
  cbv zeta. split; [reflexivity|]. split; [reflexivity|].
  apply (total_outage_fallback cfg_one [Call (at_time 0) probe_none]);
    reflexivity.
Defined.

(** C1 as stated fails twice.  With the only replica disabled at time 0,
    the call at 3601 s re-admits it and returns it, not the primary; and
    with no replica configured, a failed probe of the primary makes the
    call raise [KeyError]. *)
Lemma outage_calls_not_always_primary :
  (let s := state_of (disable_connection cfg_one 0 "r1" (initial cfg_one)) in
   none_available (slaves_statistics s) = true /\
   outcome (get_slave cfg_one (at_time (sec 3601)) probe_all s) = Returned "r1" /\
   "r1" <> DEFAULT_DB_ALIAS) /\
  (settings_SLAVE_DATABASES cfg_none = [] /\
   none_available (slaves_statistics (initial cfg_none)) = true /\
   outcome (get_slave cfg_none (at_time 0) probe_none (initial cfg_none)) =
     Raised KeyError).
Proof. cbv zeta; repeat split; vm_compute; discriminate. Qed.

(** ** Exclusion window *)

Lemma refresh_loop_keeps cfg current_time id v r d next_refresh :
  lookup id d = Some v ->
  available v = false ->
  reconnect v = Some r ->
  current_time <= r ->
  lookup id (fst (refresh_loop cfg current_time d next_refresh)) = Some v.
Proof.
  intros Hv Hav Hr Hle. revert next_refresh Hv.
  induction d as [|[k w] tl IH]; intros next_refresh Hv; [discriminate|].
  simpl in Hv. simpl.
  destruct (reconnect w) as [rw|] eqn:Hrw; [|simpl; exact Hv].
  destruct (String.eqb id k) eqn:E.
  - injection Hv as ->. rewrite Hav. rewrite Hr in Hrw. injection Hrw as <-.
    destruct (Z.ltb_spec r current_time); [lia|]. simpl.
    destruct (refresh_loop cfg current_time tl (Z.min next_refresh r)) as [tl' res].
    simpl. rewrite E. reflexivity.
  - destruct (negb (available w) && (rw <? current_time)).
    + specialize (IH next_refresh Hv).
      destruct (refresh_loop cfg current_time tl next_refresh) as [tl' res].
      simpl. rewrite E. exact IH.
    + specialize (IH (Z.min next_refresh rw) Hv).
      destruct (refresh_loop cfg current_time tl (Z.min next_refresh rw)) as [tl' res].
      simpl. rewrite E. exact IH.
Qed.

Lemma rebuilt_slaves_avoids cfg id d v :
  id <> DEFAULT_DB_ALIAS ->
  lookup id d = Some v ->
  available v = false ->
  cycle_avoids id (rebuilt_slaves cfg d).
Proof.
  intros Hne Hv Hav. unfold rebuilt_slaves, reset_slave_databases; simpl.
  assert (Hfilter : ~ In id (filter (fun x => match lookup x d with
                                               | Some v => available v
                                               | None => false
                                               end) (keys d))).
  { intros Hin. apply filter_In in Hin as [_ Hin].
    rewrite Hv, Hav in Hin. discriminate. }
  destruct (settings_SLAVE_DATABASES cfg); simpl; [congruence|].
  destruct (filter _ _) eqn:Hf; simpl; [congruence|].
  exact Hfilter.
Qed.

Lemma refresh_if_due_excluded cfg now id clock s :
  id <> DEFAULT_DB_ALIAS ->
  now_refresh clock <= now + RECONNECT_TIME cfg ->
  excluded (now + RECONNECT_TIME cfg) id s ->
  excluded (now + RECONNECT_TIME cfg) id (state_of (refresh_if_due cfg clock s)).
Proof.
  intros Hne Hclock [(v & r & Hv & Hav & Hr & Hle) Hcycle].
  unfold refresh_if_due, bind, gets, ret.
  destruct (next_refresh_available_time s <? now_guard clock); simpl;
    [|split; [exists v, r; auto | exact Hcycle]].
  rewrite refresh_available_eq.
  pose proof (refresh_loop_keeps cfg (now_refresh clock) id v r
                (slaves_statistics s) (UNIMAGINEABLE_FUTURE cfg) Hv Hav Hr
                ltac:(lia)) as Hkeep.
  destruct (refresh_loop _ _ _ _) as [d' [nr|]]; simpl in *.
  - split; [exists v, r; auto|].
    exact (rebuilt_slaves_avoids cfg id d' v Hne Hkeep Hav).
  - split; [exists v, r; auto | exact Hcycle].
Qed.

Lemma probe_candidate_excluded cfg until id clock probe s :
  id <> DEFAULT_DB_ALIAS ->
  excluded until id s ->
  excluded until id (state_of (probe_candidate cfg clock probe s)) /\
  outcome (probe_candidate cfg clock probe s) <> Returned id.
Proof.
  intros Hne [(v & r & Hv & Hav & Hr & Hle) Hcycle].
  unfold probe_candidate, bind, slaves_next.
  destruct (slaves s) as [saved cursor|x] eqn:Hslaves; simpl in Hcycle.
  - destruct (nth_error saved cursor) as [next|] eqn:Hnth; simpl.
    2:{ split; [|discriminate].
        split; [exists v, r; auto | rewrite Hslaves; exact Hcycle]. }
    assert (Hnext : next <> id).
    { intros ->. apply Hcycle. eapply nth_error_In; eauto. }
    destruct (probe next); simpl.
    + split; [|congruence]. split; [exists v, r; auto | exact Hcycle].
    + rewrite disable_connection_eq; simpl.
      destruct (lookup next (slaves_statistics s)); simpl.
      * split; [|congruence].
        assert (Hv' : lookup id
                        (update next
                           (fun _ => mkStatistics false
                                       (Some (now_disable clock + RECONNECT_TIME cfg)))
                           (slaves_statistics s)) = Some v)
          by (rewrite lookup_update_other; auto).
        split; [exists v, r; auto|].
        exact (rebuilt_slaves_avoids cfg id _ v Hne Hv' Hav).
      * split; [|discriminate]. split; [exists v, r; auto | exact Hcycle].
  - destruct (probe x); simpl.
    + split; [|congruence]. split; [exists v, r; auto | rewrite Hslaves; exact Hcycle].
    + rewrite disable_connection_eq.
      destruct (lookup x (slaves_statistics s)); simpl.
      * split; [|congruence].
        assert (Hv' : lookup id
                        (update x
                           (fun _ => mkStatistics false
                                       (Some (now_disable clock + RECONNECT_TIME cfg)))
                           (slaves_statistics s)) = Some v)
          by (rewrite lookup_update_other; auto).
        split; [exists v, r; auto|].
        exact (rebuilt_slaves_avoids cfg id _ v Hne Hv' Hav).
      * split; [|discriminate]. split; [exists v, r; auto | rewrite Hslaves; exact Hcycle].
Qed.

Lemma get_slave_excluded cfg now id clock probe s :
  id <> DEFAULT_DB_ALIAS ->
  in_window cfg now clock = true ->
  excluded (now + RECONNECT_TIME cfg) id s ->
  excluded (now + RECONNECT_TIME cfg) id (state_of (get_slave cfg clock probe s)) /\
  outcome (get_slave cfg clock probe s) <> Returned id.
Proof.
  intros Hne Hwin Hex.
  assert (Hrefresh : now_refresh clock <= now + RECONNECT_TIME cfg).
  { unfold in_window, inside in Hwin.
    repeat (apply andb_prop in Hwin as [Hwin ?]).
    repeat match goal with H : (_ <? _) = true |- _ => apply Z.ltb_lt in H end.
    lia. }
  pose proof (refresh_if_due_excluded cfg now id clock s Hne Hrefresh Hex) as Hex'.
  destruct (refresh_if_due cfg clock s) as [[] s'|e s'] eqn:Hdue; simpl in Hex'.
  - rewrite (get_slave_after_refresh _ _ _ _ _ Hdue).
    now apply probe_candidate_excluded.
  - rewrite (get_slave_refresh_raises _ _ _ _ _ _ Hdue); simpl.
    split; [exact Hex' | discriminate].
Qed.

Lemma disable_connection_excludes cfg now id s0 s1 :
  id <> DEFAULT_DB_ALIAS ->
  disable_connection cfg now id s0 = Ok tt s1 ->
  excluded (now + RECONNECT_TIME cfg) id s1.
Proof.
  intros Hne. rewrite disable_connection_eq.
  destruct (lookup id (slaves_statistics s0)) as [v|] eqn:Hv; [|discriminate].
  cbv zeta. intros H; injection H as <-. unfold excluded; simpl.
  pose proof (lookup_update_same id
                (fun _ => mkStatistics false (Some (now + RECONNECT_TIME cfg)))
                _ _ Hv) as Hv'.
  split.
  - eexists; eexists; split; [exact Hv'|]. simpl. repeat split. lia.
  - eapply rebuilt_slaves_avoids; eauto.
Qed.

(** C2: after [disable_connection] has run for a replica [id] (other
    than the primary alias) at time [now], no call of [get_slave] whose
    clock readings lie strictly between [now] and [now + RECONNECT_TIME]
    returns [id], however many such calls follow one another and whatever
    their probes answer. *)
Theorem exclusion_window cfg now id s0 s1 calls :
  id <> DEFAULT_DB_ALIAS ->
  disable_connection cfg now id s0 = Ok tt s1 ->
  forallb (fun c => in_window cfg now (fst c)) calls = true ->
  ~ In (Returned id) (fst (run_calls cfg calls s1)).
Proof.
  intros Hne Hdisable Hcalls.
  pose proof (disable_connection_excludes cfg now id s0 s1 Hne Hdisable) as Hex.
  clear Hdisable. revert s1 Hex.
  induction calls as [|[clock probe] tl IH]; intros s1 Hex; simpl; [tauto|].
  simpl in Hcalls. apply andb_prop in Hcalls as [Hc Htl].
  destruct (get_slave_excluded cfg now id clock probe s1 Hne Hc Hex) as [Hex' Hout].
  specialize (IH Htl _ Hex').
  destruct (run_calls cfg tl (state_of (get_slave cfg clock probe s1))) as [outs s2].
  simpl in *. intros [H|H]; [congruence | tauto].
Qed.

Lemma exclusion_window_witness :
  let s1 := state_of (disable_connection cfg_two 0 "r1" (initial cfg_two)) in
  let calls := [(at_time (sec 1), probe_all); (at_time (sec 30), probe_none);
                (at_time (sec 59), probe_all)] in
  "r1" <> DEFAULT_DB_ALIAS /\
  disable_connection cfg_two 0 "r1" (initial cfg_two) = Ok tt s1 /\
  forallb (fun c => in_window cfg_two 0 (fst c)) calls = true /\
  ~ In (Returned "r1") (fst (run_calls cfg_two calls s1)).
Proof.
  cbv zeta. split; [discriminate|]. split; [reflexivity|]. split; [reflexivity|].
  apply (exclusion_window cfg_two 0 "r1" (initial cfg_two));
    [discriminate | reflexivity | reflexivity].
Defined.

(** ** Available replicas carry no deadline *)

Lemma registry_ok_update P k f d :
  registry_ok P d -> (forall v, P (f v)) -> registry_ok P (update k f d).
Proof.
  intros Hd Hf. induction Hd as [|[k' v'] tl Hv Htl IH]; simpl; [constructor|].
  destruct (String.eqb k k'); constructor; simpl; auto.
Qed.

Lemma registry_ok_dict_of P dbs d :
  P (mkStatistics true None) -> registry_ok P d -> registry_ok P (dict_of dbs d).
Proof.
  intros Hinit. revert d.
  induction dbs as [|db tl IH]; intros d Hd; simpl; [exact Hd|].
  apply IH. destruct (lookup db d).
  - apply registry_ok_update; auto.
  - apply Forall_app; split; [exact Hd | repeat constructor; exact Hinit].
Qed.

Lemma refresh_loop_available_ok cfg current_time d next_refresh :
  registry_ok (available_ok cfg) d ->
  registry_ok (available_ok cfg)
              (fst (refresh_loop cfg current_time d next_refresh)).
Proof.
  intros Hd. revert next_refresh.
  induction Hd as [|[k v] tl Hv Htl IH]; intros next_refresh; simpl; [constructor|].
  destruct (reconnect v) as [r|] eqn:Hr; [|constructor; assumption].
  destruct (negb (available v) && (r <? current_time)).
  - specialize (IH next_refresh).
    destruct (refresh_loop cfg current_time tl next_refresh) as [tl' res].
    constructor; [|exact IH]. intros _; right; reflexivity.
  - specialize (IH (Z.min next_refresh r)).
    destruct (refresh_loop cfg current_time tl (Z.min next_refresh r)) as [tl' res].
    constructor; [exact Hv | exact IH].
Qed.

Lemma exec_available_ok cfg op s :
  registry_ok (available_ok cfg) (slaves_statistics s) ->
  registry_ok (available_ok cfg) (slaves_statistics (state_of (exec cfg op s))).
Proof.
  intros Hs. destruct op as [now alias|current_time]; simpl.
  - rewrite disable_connection_eq.
    destruct (lookup alias (slaves_statistics s)); simpl; [|exact Hs].
    apply registry_ok_update; [exact Hs|]. intros v Hav; discriminate.
  - rewrite refresh_available_eq.
    pose proof (refresh_loop_available_ok cfg current_time (slaves_statistics s)
                  (UNIMAGINEABLE_FUTURE cfg) Hs) as Hloop.
    destruct (refresh_loop _ _ _ _) as [d' [nr|]]; exact Hloop.
Qed.

Lemma initial_statistics cfg :
  slaves_statistics (initial cfg) = dict_of (settings_SLAVE_DATABASES cfg) [].
Proof. unfold initial. rewrite reset_slave_databases_eq. reflexivity. Qed.

Lemma perform_available_ok cfg a s :
  registry_ok (available_ok cfg) (slaves_statistics s) ->
  registry_ok (available_ok cfg) (slaves_statistics (perform cfg a s)).
Proof.
  intros Hs. destruct a as [op|clock probe]; simpl;
    [now apply exec_available_ok|].
  destruct (get_slave_state cfg clock probe s) as (s0 & Hs0 & Hfinal).
  assert (Hok0 : registry_ok (available_ok cfg) (slaves_statistics s0))
    by (destruct Hs0 as [->| ->]; [exact Hs | now apply exec_available_ok]).
  destruct Hfinal as [-> | ->]; [exact Hok0|].
  destruct (probe_candidate_as_op cfg clock probe s0)
    as (s1 & Hstat & _ & _ & Hfinal).
  assert (Hok1 : registry_ok (available_ok cfg) (slaves_statistics s1))
    by (rewrite Hstat; exact Hok0).
  destruct Hfinal as [-> | [next ->]];
    [exact Hok1 | now apply exec_available_ok].
Qed.

(** C10: in every state reached from the initial one by any sequence of
    [disable_connection] and [refresh_available] calls (at any times, on
    any aliases, whether they return or raise, called directly or from
    within [get_slave]), a replica whose ['available'] flag is true has
    no ['reconnect'] entry or has the sentinel [UNIMAGINEABLE_FUTURE]
    there. *)
Theorem available_replicas_have_sentinel cfg history :
  Forall (fun kv => available (snd kv) = true ->
                    reconnect (snd kv) = None \/
                    reconnect (snd kv) = Some (UNIMAGINEABLE_FUTURE cfg))
         (slaves_statistics (run_actions cfg history (initial cfg))).
Proof.
  change (registry_ok (available_ok cfg)
            (slaves_statistics (run_actions cfg history (initial cfg)))).
  assert (Hinit : registry_ok (available_ok cfg) (slaves_statistics (initial cfg))).
  { rewrite initial_statistics. apply registry_ok_dict_of; [|constructor].
    intros _; left; reflexivity. }
  revert Hinit. generalize (initial cfg).
  induction history as [|a tl IH]; intros s Hs; simpl; [exact Hs|].
  apply IH. now apply perform_available_ok.
Qed.

(** Sequences of the two maintenance methods are histories. *)
Lemma run_ops_as_actions cfg ops s :
  run_ops cfg ops s = run_actions cfg (map Internal ops) s.
Proof.
  revert s. induction ops as [|op tl IH]; intros s; simpl; [reflexivity|].
  apply IH.
Qed.

(** A re-admitted entry (available, reconnect time at the sentinel) does
    not move the minimum the loop accumulates, as long as that minimum
    is not above the sentinel. *)
Lemma refresh_loop_sentinel_neutral cfg current_time k tl next_refresh :
  next_refresh <= UNIMAGINEABLE_FUTURE cfg ->
  refresh_loop cfg current_time
    ((k, mkStatistics true (Some (UNIMAGINEABLE_FUTURE cfg))) :: tl) next_refresh =
  (let '(tl', res) := refresh_loop cfg current_time tl next_refresh in
   ((k, mkStatistics true (Some (UNIMAGINEABLE_FUTURE cfg))) :: tl', res)).
Proof.
  intros Hle. simpl. rewrite Z.min_l by exact Hle. reflexivity.
Qed.

(** An entry that was never disabled makes the loop raise. *)
Lemma refresh_loop_never_disabled cfg current_time k a tl next_refresh :
  refresh_loop cfg current_time ((k, mkStatistics a None) :: tl) next_refresh =
  ((k, mkStatistics a None) :: tl, None).
Proof. reflexivity. Qed.

(** ** The refresh deadline *)

Lemma deadline_min_le cfg d : deadline_min cfg d <= UNIMAGINEABLE_FUTURE cfg.
Proof.
  induction d as [|[k v] tl IH]; simpl; [lia|].
  destruct (available v); [exact IH|].
  destruct (reconnect v); [lia | exact IH].
Qed.

Lemma deadline_min_fold cfg d :
  deadline_min cfg d =
  fold_right Z.min (UNIMAGINEABLE_FUTURE cfg) (unavailable_deadlines d).
Proof.
  unfold unavailable_deadlines.
  induction d as [|[k v] tl IH]; simpl; [reflexivity|].
  destruct (available v); simpl; [exact IH|].
  destruct (reconnect v); simpl; [rewrite IH; reflexivity | exact IH].
Qed.

Lemma fold_min_absorb (top r : Z) (rs : list Z) :
  r <= top ->
  fold_right Z.min top (r :: rs) = fold_right Z.min r rs.
Proof.
  intros Hle. simpl.
  induction rs as [|x rs IH]; simpl; lia.
Qed.

Lemma unavailable_deadlines_bounded cfg d :
  registry_ok (unavailable_ok cfg) d ->
  Forall (fun r => r <= UNIMAGINEABLE_FUTURE cfg) (unavailable_deadlines d).
Proof.
  unfold unavailable_deadlines.
  induction 1 as [|[k v] tl Hv Htl IH]; simpl; [constructor|].
  destruct (available v) eqn:Hav; simpl; [exact IH|].
  destruct (Hv Hav) as (r & Hr & Hle). simpl in Hr. rewrite Hr.
  constructor; assumption.
Qed.

Lemma deadline_min_spec cfg d :
  registry_ok (unavailable_ok cfg) d ->
  deadline_min cfg d = spec_NextRefreshDeadline cfg d.
Proof.
  intros Hd. rewrite deadline_min_fold. unfold spec_NextRefreshDeadline.
  pose proof (unavailable_deadlines_bounded cfg d Hd) as Hb.
  destruct (unavailable_deadlines d) as [|r rs]; [reflexivity|].
  apply fold_min_absorb. now inversion Hb.
Qed.

Lemma deadline_min_disable cfg alias r d v :
  lookup alias d = Some v ->
  available v = true ->
  deadline_min cfg (update alias (fun _ => mkStatistics false (Some r)) d) =
  Z.min (deadline_min cfg d) r.
Proof.
  intros Hv Hav. induction d as [|[k w] tl IH]; simpl in *; [discriminate|].
  destruct (String.eqb alias k); simpl.
  - injection Hv as ->. rewrite Hav. lia.
  - specialize (IH Hv). destruct (available w); [exact IH|].
    destruct (reconnect w); [rewrite IH; lia | exact IH].
Qed.

Lemma refresh_loop_deadline cfg current_time d next_refresh d' next_refresh' :
  registry_ok (available_ok cfg) d ->
  registry_ok (unavailable_ok cfg) d ->
  next_refresh <= UNIMAGINEABLE_FUTURE cfg ->
  refresh_loop cfg current_time d next_refresh = (d', Some next_refresh') ->
  registry_ok (unavailable_ok cfg) d' /\
  next_refresh' = Z.min next_refresh (deadline_min cfg d').
Proof.
  intros Ha Hu. revert next_refresh d' next_refresh'.
  induction d as [|[k v] tl IH]; intros next_refresh d' next_refresh' Hle Hloop.
  - simpl in Hloop. injection Hloop as <- <-. split; [constructor|].
    simpl. lia.
  - inversion Ha as [|? ? Hav Ha']; subst. inversion Hu as [|? ? Hun Hu']; subst.
    simpl in Hav, Hun. simpl in Hloop.
    destruct (reconnect v) as [r|] eqn:Hr; [|discriminate].
    destruct (available v) eqn:Hv; simpl in Hloop.
    + destruct (refresh_loop cfg current_time tl (Z.min next_refresh r))
        as [tl' res] eqn:Htl.
      injection Hloop as <- ->.
      destruct (Hav Hv) as [Hnone|Hsent]; [congruence|].
      rewrite Hr in Hsent. injection Hsent as ->.
      destruct (IH Ha' Hu' _ _ _ (Z.le_trans _ _ _ (Z.le_min_l _ _) Hle) Htl)
        as [Hu'' Hmin].
      split.
      * constructor; [simpl; intros Hc; congruence | exact Hu''].
      * simpl. rewrite Hv. rewrite Hmin. lia.
    + destruct (Hun Hv) as (r0 & Hr0 & Hbound).
      rewrite Hr in Hr0. injection Hr0 as <-.
      destruct (r <? current_time).
      * destruct (refresh_loop cfg current_time tl next_refresh)
          as [tl' res] eqn:Htl.
        injection Hloop as <- ->.
        destruct (IH Ha' Hu' _ _ _ Hle Htl) as [Hu'' Hmin].
        split; [constructor; [intros Hc; discriminate | exact Hu'']|].
        simpl. exact Hmin.
      * destruct (refresh_loop cfg current_time tl (Z.min next_refresh r))
          as [tl' res] eqn:Htl.
        injection Hloop as <- ->.
        destruct (IH Ha' Hu' _ _ _ (Z.le_trans _ _ _ (Z.le_min_l _ _) Hle) Htl)
        as [Hu'' Hmin].
        split; [constructor; [exact Hun | exact Hu'']|].
        simpl. rewrite Hv, Hr, Hmin. lia.
Qed.

Lemma well_formed_initial cfg : well_formed cfg (initial cfg).
Proof.
  unfold well_formed. rewrite initial_statistics.
  assert (Hall : registry_ok (fun v => v = mkStatistics true None)
                   (dict_of (settings_SLAVE_DATABASES cfg) [])).
  { apply registry_ok_dict_of; [reflexivity | constructor]. }
  repeat split.
  - eapply Forall_impl; [|exact Hall]. intros kv ->. intros _; now left.
  - eapply Forall_impl; [|exact Hall]. intros kv ->. intros Hc; discriminate.
  - unfold initial. rewrite reset_slave_databases_eq; simpl.
    induction Hall as [|[k v] tl Hv Htl IH]; simpl; [reflexivity|].
    simpl in Hv; subst v; simpl. exact IH.
Qed.

Lemma well_formed_step cfg op s s' :
  well_formed cfg s ->
  regular cfg op s = true ->
  exec cfg op s = Ok tt s' ->
  well_formed cfg s'.
Proof.
  intros (Ha & Hu & Hnext) Hreg Hexec.
  pose proof (exec_available_ok cfg op s Ha) as Ha'. rewrite Hexec in Ha'.
  simpl in Ha'. split; [exact Ha'|]. clear Ha'.
  destruct op as [now alias|current_time]; simpl in *.
  - rewrite disable_connection_eq in Hexec.
    destruct (lookup alias (slaves_statistics s)) as [v|] eqn:Hv; [|discriminate].
    apply andb_prop in Hreg as [Hav Hbound]. apply Z.leb_le in Hbound.
    cbv zeta in Hexec. injection Hexec as <-. simpl. split.
    + apply registry_ok_update; [exact Hu|]. intros w _. simpl.
      eexists; split; [reflexivity | exact Hbound].
    + rewrite (deadline_min_disable cfg alias _ _ v Hv Hav), Hnext. reflexivity.
  - rewrite refresh_available_eq in Hexec.
    destruct (refresh_loop cfg current_time (slaves_statistics s)
                (UNIMAGINEABLE_FUTURE cfg)) as [d' [nr|]] eqn:Hloop; [|discriminate].
    injection Hexec as <-. simpl.
    destruct (refresh_loop_deadline cfg current_time _ _ _ _ Ha Hu (Z.le_refl _) Hloop)
      as [Hu' Hmin].
    split; [exact Hu'|]. rewrite Hmin.
    pose proof (deadline_min_le cfg d'). lia.
Qed.

Lemma well_formed_run cfg ops s s' :
  well_formed cfg s ->
  run_regular cfg ops s = Some s' ->
  well_formed cfg s'.
Proof.
  revert s. induction ops as [|op tl IH]; intros s Hs Hrun; simpl in Hrun.
  - injection Hrun as <-. exact Hs.
  - destruct (regular cfg op s) eqn:Hreg; [|discriminate].
    destruct (exec cfg op s) as [[] s1|e s1] eqn:Hexec; [|discriminate].
    exact (IH s1 (well_formed_step cfg op s s1 Hs Hreg Hexec) Hrun).
Qed.

(** C4 (as the code has it): after any sequence of [disable_connection]
    and [refresh_available] calls from the initial state in which every
    call returns normally, every [disable_connection] names a replica
    that is available at that moment and its new reconnect time does
    not pass the sentinel, [next_refresh_available_time] is the minimum
    reconnect time over the unavailable replicas, or the sentinel when
    none is unavailable. *)
Theorem deadline_invariant cfg ops s :
  run_regular cfg ops (initial cfg) = Some s ->
  next_refresh_available_time s =
    spec_NextRefreshDeadline cfg (slaves_statistics s).
Proof.
  intros Hrun.
  destruct (well_formed_run cfg ops _ _ (well_formed_initial cfg) Hrun)
    as (_ & Hu & Hnext).
  rewrite Hnext. now apply deadline_min_spec.
Qed.

Lemma deadline_invariant_witness :
  let ops := [OpDisable 0 "r1"; OpDisable (sec 10) "r2"; OpRefresh (sec 30);
              OpRefresh (sec 61)] in
  let s := mkState [("r1", mkStatistics true (Some (UNIMAGINEABLE_FUTURE cfg_two)));
                    ("r2", mkStatistics false (Some (sec 70)))]
                   (sec 70) (Cycle ["r1"] 0) in
  run_regular cfg_two ops (initial cfg_two) = Some s /\
  next_refresh_available_time s =
    spec_NextRefreshDeadline cfg_two (slaves_statistics s).
Proof.
  cbv zeta. split; [reflexivity|].
  apply (deadline_invariant cfg_two
           [OpDisable 0 "r1"; OpDisable (sec 10) "r2"; OpRefresh (sec 30);
            OpRefresh (sec 61)]).
  reflexivity.
Defined.

(** C4 as stated fails.  Disabling r1 at time 0 and again at 100 s leaves
    the deadline at 3600 s while the only unavailable replica reconnects
    at 3700 s.  A refresh that raises on a never-disabled replica has
    already reset the deadline to the sentinel although r1 is still
    unavailable.  A reconnect time past the sentinel is not taken up by
    the deadline. *)
Lemma deadline_not_always_minimum :
  (let s := run_ops cfg_one [OpDisable 0 "r1"; OpDisable (sec 100) "r1"]
                    (initial cfg_one) in
   next_refresh_available_time s = sec 3600 /\
   spec_NextRefreshDeadline cfg_one (slaves_statistics s) = sec 3700) /\
  (let s := run_ops cfg_two [OpDisable 0 "r1"; OpRefresh (sec 30)]
                    (initial cfg_two) in
   next_refresh_available_time s = UNIMAGINEABLE_FUTURE cfg_two /\
   spec_NextRefreshDeadline cfg_two (slaves_statistics s) = sec 60) /\
  (let s := run_ops cfg_one [OpDisable (UNIMAGINEABLE_FUTURE cfg_one) "r1"]
                    (initial cfg_one) in
   next_refresh_available_time s = UNIMAGINEABLE_FUTURE cfg_one /\
   spec_NextRefreshDeadline cfg_one (slaves_statistics s) =
     UNIMAGINEABLE_FUTURE cfg_one + sec 3600) /\
  sec 3600 <> sec 3700 /\
  UNIMAGINEABLE_FUTURE cfg_two <> sec 60 /\
  UNIMAGINEABLE_FUTURE cfg_one <> UNIMAGINEABLE_FUTURE cfg_one + sec 3600.
Proof. cbv zeta; repeat split; vm_compute; discriminate. Qed.

(** ** What a refresh does *)

Lemma fold_left_min_le (l : list Z) (a : Z) : fold_left Z.min l a <= a.
Proof.
  revert a. induction l as [|x l IH]; intros a; simpl; [lia|].
  specialize (IH (Z.min a x)). lia.
Qed.

Lemma refresh_loop_complete cfg current_time d next_refresh :
  all_recorded d = true ->
  refresh_loop cfg current_time d next_refresh =
  (map (refresh_entry cfg current_time) d,
   Some (fold_left Z.min (kept_deadlines current_time d) next_refresh)).
Proof.
  unfold kept_deadlines. revert next_refresh.
  induction d as [|[k v] tl IH]; intros next_refresh Hrec; [reflexivity|].
  simpl in Hrec. simpl. unfold refresh_entry at 1, readmitted; simpl.
  destruct (reconnect v) as [r|] eqn:Hr; [|discriminate].
  destruct (negb (available v) && (r <? current_time)); simpl.
  - rewrite (IH next_refresh Hrec). reflexivity.
  - rewrite (IH (Z.min next_refresh r) Hrec). reflexivity.
Qed.

Lemma lookup_refresh_entry cfg current_time id d v :
  lookup id d = Some v ->
  lookup id (map (refresh_entry cfg current_time) d) =
    Some (snd (refresh_entry cfg current_time (id, v))).
Proof.
  induction d as [|[k w] tl IH]; simpl; [discriminate|].
  assert (Hfst : fst (refresh_entry cfg current_time (k, w)) = k)
    by (unfold refresh_entry; simpl; destruct (readmitted current_time w); reflexivity).
  destruct (refresh_entry cfg current_time (k, w)) as [k' w'] eqn:He.
  simpl in Hfst; subst k'.
  destruct (String.eqb id k) eqn:E.
  - intros H; injection H as ->. unfold refresh_entry in *; simpl in *.
    destruct (readmitted current_time v); injection He as <-; reflexivity.
  - exact IH.
Qed.

Lemma rebuilt_slaves_member cfg id d v :
  settings_SLAVE_DATABASES cfg <> [] ->
  lookup id d = Some v ->
  available v = true ->
  exists saved, rebuilt_slaves cfg d = Cycle saved 0 /\ In id saved.
Proof.
  intros Hcfg Hv Hav. unfold rebuilt_slaves, reset_slave_databases; simpl.
  destruct (settings_SLAVE_DATABASES cfg) as [|db dbs]; [congruence|].
  assert (Hin : In id (filter (fun x => match lookup x d with
                                        | Some v => available v
                                        | None => false
                                        end) (keys d))).
  { apply filter_In. split; [eapply lookup_In_keys; eauto|].
    rewrite Hv. exact Hav. }
  destruct (filter _ _) as [|x saved] eqn:Hf; [contradiction|].
  simpl. eexists; split; [reflexivity | exact Hin].
Qed.

(** C3 (as the code has it), for a state in which every replica has a
    recorded reconnect time.  The guard of [get_slave] skips the refresh
    unless the clock is strictly past the deadline.  When the refresh
    runs it returns normally, makes available exactly the unavailable
    replicas whose reconnect time is strictly before the clock reading
    (storing the sentinel as their reconnect time), rebuilds the iterator
    from the updated registry and stores the minimum recorded reconnect
    time of the entries it kept, capped by the sentinel; on a registry
    whose available replicas carry the sentinel and whose unavailable
    ones reconnect no later than the sentinel, that is the minimum over
    the remaining unavailable replicas, or the sentinel when none remains.
    A replica disabled at [now] is available and in the iterator after a
    refresh at a time strictly later than [now + RECONNECT_TIME]. *)
Theorem refresh_behaviour cfg clock s :
  all_recorded (slaves_statistics s) = true ->
  let current_time := now_refresh clock in
  let d' := map (refresh_entry cfg current_time) (slaves_statistics s) in
  let deadline' := fold_left Z.min (kept_deadlines current_time (slaves_statistics s))
                             (UNIMAGINEABLE_FUTURE cfg) in
  (now_guard clock <= next_refresh_available_time s ->
   refresh_if_due cfg clock s = Ok tt s) /\
  (next_refresh_available_time s < now_guard clock ->
   refresh_if_due cfg clock s = refresh_available cfg current_time s) /\
  refresh_available cfg current_time s =
    Ok tt (mkState d' deadline' (rebuilt_slaves cfg d')) /\
  (registry_ok (available_ok cfg) (slaves_statistics s) ->
   registry_ok (unavailable_ok cfg) (slaves_statistics s) ->
   deadline' = spec_NextRefreshDeadline cfg d') /\
  (forall id now v,
      settings_SLAVE_DATABASES cfg <> [] ->
      lookup id (slaves_statistics s) = Some v ->
      available v = false ->
      reconnect v = Some (now + RECONNECT_TIME cfg) ->
      now + RECONNECT_TIME cfg < current_time ->
      lookup id d' = Some (mkStatistics true (Some (UNIMAGINEABLE_FUTURE cfg))) /\
      exists saved, rebuilt_slaves cfg d' = Cycle saved 0 /\ In id saved).
Proof.
  intros Hrec current_time d' deadline'.
  pose proof (refresh_loop_complete cfg current_time (slaves_statistics s)
                (UNIMAGINEABLE_FUTURE cfg) Hrec) as Hloop.
  fold d' deadline' in Hloop.
  split; [apply refresh_if_due_not_due|].
  split; [apply refresh_if_due_due|].
  split; [|split].
  - rewrite refresh_available_eq, Hloop.
    rewrite Z.min_r by apply fold_left_min_le. reflexivity.
  - intros Ha Hu.
    destruct (refresh_loop_deadline cfg current_time _ _ _ _ Ha Hu (Z.le_refl _) Hloop)
      as [Hu' Hmin].
    rewrite Hmin, <- (deadline_min_spec cfg d' Hu').
    pose proof (deadline_min_le cfg d'). lia.
  - intros id now v Hcfg Hv Hav Hr Hlt.
    assert (Hv' : lookup id d' =
                  Some (mkStatistics true (Some (UNIMAGINEABLE_FUTURE cfg)))).
    { unfold d'. rewrite (lookup_refresh_entry cfg current_time id _ v Hv).
      unfold refresh_entry, readmitted; simpl. rewrite Hav, Hr; simpl.
      destruct (Z.ltb_spec (now + RECONNECT_TIME cfg) current_time); [|lia].
      reflexivity. }
    split; [exact Hv'|].
    eapply rebuilt_slaves_member; eauto.
Qed.

Lemma refresh_behaviour_witness :
  let s := state_of (disable_connection cfg_one 0 "r1" (initial cfg_one)) in
  let d' := [("r1", mkStatistics true (Some (UNIMAGINEABLE_FUTURE cfg_one)))] in
  all_recorded (slaves_statistics s) = true /\
  refresh_if_due cfg_one (at_time (sec 3600)) s = Ok tt s /\
  refresh_available cfg_one (sec 3601) s =
    Ok tt (mkState d' (UNIMAGINEABLE_FUTURE cfg_one) (Cycle ["r1"] 0)) /\
  UNIMAGINEABLE_FUTURE cfg_one = spec_NextRefreshDeadline cfg_one d' /\
  exists saved, rebuilt_slaves cfg_one d' = Cycle saved 0 /\ In "r1" saved.
Proof.
  cbv zeta. split; [reflexivity|].
  pose proof (refresh_behaviour cfg_one (at_time (sec 3600))
                (state_of (disable_connection cfg_one 0 "r1" (initial cfg_one)))
                eq_refl) as H1.
  pose proof (refresh_behaviour cfg_one (at_time (sec 3601))
                (state_of (disable_connection cfg_one 0 "r1" (initial cfg_one)))
                eq_refl) as H2.
  cbv zeta in H1, H2.
  destruct H1 as (Hskip & _).
  destruct H2 as (_ & _ & Hrun & Hspec & Hback).
  split; [apply Hskip; vm_compute; discriminate|].
  split; [exact Hrun|].
  split.
  - apply Hspec; repeat constructor; simpl; try discriminate.
    intros _. eexists; split; [reflexivity | vm_compute; discriminate].
  - apply (Hback "r1" 0 (mkStatistics false (Some (sec 3600))));
      try reflexivity; discriminate.
Defined.

(** C3 as stated fails at the boundary and on never-disabled replicas.
    With r1 disabled at time 0 (reconnect time 3600 s), a refresh at
    exactly 3600 s keeps r1 unavailable, and the guard of [get_slave] at
    3600 s does not run the refresh at all; and with r2 never disabled,
    the refresh at 61 s raises [KeyError] before rebuilding the iterator. *)
Lemma refresh_is_strict_and_partial :
  (let s := state_of (disable_connection cfg_one 0 "r1" (initial cfg_one)) in
   lookup "r1" (slaves_statistics s) =
     Some (mkStatistics false (Some (sec 3600))) /\
   0 + RECONNECT_TIME cfg_one = sec 3600 /\
   lookup "r1" (slaves_statistics (state_of (refresh_available cfg_one (sec 3600) s))) =
     Some (mkStatistics false (Some (sec 3600))) /\
   get_slave cfg_one (at_time (sec 3600)) probe_all s = Ok DEFAULT_DB_ALIAS s) /\
  (let s := state_of (disable_connection cfg_two 0 "r1" (initial cfg_two)) in
   refresh_available cfg_two (sec 61) s =
     Raise KeyError
           (mkState [("r1", mkStatistics true (Some (UNIMAGINEABLE_FUTURE cfg_two)));
                     ("r2", mkStatistics true None)]
                    (UNIMAGINEABLE_FUTURE cfg_two) (Cycle ["r2"] 0))).
Proof. cbv zeta; repeat split. Qed.

(** * Further properties of the selection engine *)

(** ** How a call of [get_slave] unfolds *)

Lemma get_slave_cases cfg clock probe s :
  (exists e s', refresh_if_due cfg clock s = Raise e s' /\
                get_slave cfg clock probe s = Raise e s') \/
  (exists s0,
      refresh_if_due cfg clock s = Ok tt s0 /\
      ((exists e, slaves_next s0 = Raise e s0 /\
                  get_slave cfg clock probe s = Raise e s0) \/
       (exists x s1,
           slaves_next s0 = Ok x s1 /\
           ((probe x = true /\ get_slave cfg clock probe s = Ok x s1) \/
            (probe x = false /\
             get_slave cfg clock probe s =
             match disable_connection cfg (now_disable clock) x s1 with
             | Ok _ s2 => Ok DEFAULT_DB_ALIAS s2
             | Raise e s2 => Raise e s2
             end))))).
Proof.
  destruct (refresh_if_due cfg clock s) as [[] s0|e s'] eqn:Hdue.
  - right. exists s0. split; [reflexivity|].
    rewrite (get_slave_after_refresh _ _ _ _ _ Hdue).
    unfold probe_candidate, bind.
    destruct (slaves_next s0) as [x s1|e s1] eqn:Hnext.
    + right. exists x, s1. split; [reflexivity|].
      destruct (probe x); [left | right]; split; reflexivity.
    + left. exists e.
      assert (s1 = s0) as ->.
      { unfold slaves_next in Hnext. destruct (slaves s0) as [saved cursor|y];
          [destruct (nth_error saved cursor)|]; congruence. }
      split; reflexivity.
  - left. exists e, s'. split; [reflexivity|].
    now apply get_slave_refresh_raises.
Qed.

Lemma refresh_if_due_state cfg clock s :
  state_of (refresh_if_due cfg clock s) = s \/
  state_of (refresh_if_due cfg clock s) =
    state_of (exec cfg (OpRefresh (now_refresh clock)) s).
Proof.
  destruct (refresh_if_due_as_op cfg clock s) as [H|H]; rewrite H;
    [left | right]; reflexivity.
Qed.

(** A property of the state kept by the two maintenance methods
    (whether they return or raise) and by a step of the iterator is kept
    by every action. *)
Lemma perform_preserves cfg (P : State -> Prop) :
  (forall s op, P s -> P (state_of (exec cfg op s))) ->
  (forall s x s1, P s -> slaves_next s = Ok x s1 -> P s1) ->
  forall a s, P s -> P (perform cfg a s).
Proof.
  intros Hexec Hnext a s Hs. destruct a as [op|clock probe]; simpl;
    [now apply Hexec|].
  assert (Hdue : P (state_of (refresh_if_due cfg clock s))).
  { destruct (refresh_if_due_state cfg clock s) as [-> | ->];
      [exact Hs | now apply Hexec]. }
  destruct (get_slave_cases cfg clock probe s)
    as [(e & s' & Hr & ->) | (s0 & Hr & Hrest)]; rewrite Hr in Hdue; simpl in *;
    [exact Hdue|].
  destruct Hrest as [(e & _ & ->) | (x & s1 & Hx & Hrest)]; [exact Hdue|].
  pose proof (Hnext _ _ _ Hdue Hx) as Hs1.
  destruct Hrest as [[_ ->] | [_ ->]]; [exact Hs1|].
  specialize (Hexec s1 (OpDisable (now_disable clock) x) Hs1). simpl in Hexec.
  destruct (disable_connection cfg (now_disable clock) x s1); exact Hexec.
Qed.

Lemma run_actions_preserves cfg (P : State -> Prop) :
  (forall s op, P s -> P (state_of (exec cfg op s))) ->
  (forall s x s1, P s -> slaves_next s = Ok x s1 -> P s1) ->
  forall history s, P s -> P (run_actions cfg history s).
Proof.
  intros Hexec Hnext history.
  induction history as [|a tl IH]; intros s Hs; simpl; [exact Hs|].
  apply IH. now apply perform_preserves.
Qed.

Lemma slaves_next_frame s x s1 :
  slaves_next s = Ok x s1 ->
  slaves_statistics s1 = slaves_statistics s /\
  next_refresh_available_time s1 = next_refresh_available_time s.
Proof.
  unfold slaves_next. destruct (slaves s) as [saved cursor|y].
  - destruct (nth_error saved cursor); [|discriminate].
    intros H; injection H as _ <-. split; reflexivity.
  - intros H; injection H as _ <-. split; reflexivity.
Qed.

Lemma slaves_next_yield s x s1 :
  slaves_next s = Ok x s1 ->
  (slaves s = Repeat x /\ s1 = s) \/
  (exists saved cursor,
      slaves s = Cycle saved cursor /\
      nth_error saved cursor = Some x /\
      s1 = set_slaves
             (Cycle saved (if Nat.ltb (S cursor) (List.length saved)
                           then S cursor else O)) s).
Proof.
  unfold slaves_next. destruct (slaves s) as [saved cursor|y] eqn:Hs.
  - destruct (nth_error saved cursor) as [z|] eqn:Hz; [|discriminate].
    intros H; injection H as <- <-. right. exists saved, cursor. auto.
  - intros H; injection H as <- <-. left. auto.
Qed.

(** ** The registry keeps its keys *)

Lemma lookup_None k d : lookup k d = None <-> ~ In k (keys d).
Proof.
  unfold keys. induction d as [|[k' v] tl IH]; simpl; [tauto|].
  destruct (String.eqb k k') eqn:E.
  - apply String.eqb_eq in E. subst. split; [discriminate | tauto].
  - apply String.eqb_neq in E. rewrite IH. split; [|tauto].
    intros H [H'|H']; [congruence | tauto].
Qed.

Lemma keys_app d1 d2 : keys (d1 ++ d2) = (keys d1 ++ keys d2)%list.
Proof. unfold keys. apply map_app. Qed.

Lemma keys_dict_of_In dbs d x :
  In x (keys (dict_of dbs d)) <-> In x (keys d) \/ In x dbs.
Proof.
  revert d. induction dbs as [|db tl IH]; intros d; simpl; [tauto|].
  rewrite IH. destruct (lookup db d) as [v|] eqn:Hdb.
  - rewrite keys_update. apply lookup_In_keys in Hdb.
    split; [tauto|]. intros [H|[->|H]]; tauto.
  - rewrite keys_app, in_app_iff. simpl. tauto.
Qed.

Lemma keys_dict_of_NoDup dbs d :
  NoDup (keys d) -> NoDup (keys (dict_of dbs d)).
Proof.
  revert d. induction dbs as [|db tl IH]; intros d Hd; simpl; [exact Hd|].
  apply IH. destruct (lookup db d) as [v|] eqn:Hdb.
  - rewrite keys_update. exact Hd.
  - rewrite keys_app. simpl. apply lookup_None in Hdb.
    apply NoDup_app; [exact Hd | repeat constructor; simpl; tauto|].
    intros y Hy [<-|[]]. contradiction.
Qed.

Lemma refresh_loop_keys cfg current_time d next_refresh :
  keys (fst (refresh_loop cfg current_time d next_refresh)) = keys d.
Proof.
  revert next_refresh. unfold keys.
  induction d as [|[k v] tl IH]; intros next_refresh; simpl; [reflexivity|].
  destruct (reconnect v) as [r|]; [|reflexivity].
  destruct (negb (available v) && (r <? current_time)).
  - specialize (IH next_refresh).
    destruct (refresh_loop cfg current_time tl next_refresh); simpl in *.
    now rewrite IH.
  - specialize (IH (Z.min next_refresh r)).
    destruct (refresh_loop cfg current_time tl (Z.min next_refresh r)); simpl in *.
    now rewrite IH.
Qed.

Lemma exec_keys cfg op s :
  keys (slaves_statistics (state_of (exec cfg op s))) = keys (slaves_statistics s).
Proof.
  destruct op as [now alias|current_time]; simpl.
  - rewrite disable_connection_eq.
    destruct (lookup alias (slaves_statistics s)); simpl; [|reflexivity].
    apply keys_update.
  - rewrite refresh_available_eq.
    pose proof (refresh_loop_keys cfg current_time (slaves_statistics s)
                  (UNIMAGINEABLE_FUTURE cfg)) as Hkeys.
    destruct (refresh_loop _ _ _ _) as [d' [nr|]]; exact Hkeys.
Qed.

Lemma run_actions_keys cfg history s :
  keys (slaves_statistics (run_actions cfg history s)) = keys (slaves_statistics s).
Proof.
  apply (run_actions_preserves cfg
           (fun s' => keys (slaves_statistics s') = keys (slaves_statistics s))).
  - intros s' op Hs'. rewrite exec_keys. exact Hs'.
  - intros s' x s1 Hs' Hx. destruct (slaves_next_frame _ _ _ Hx) as [-> _].
    exact Hs'.
  - reflexivity.
Qed.

Lemma run_actions_keys_NoDup cfg history :
  NoDup (keys (slaves_statistics (run_actions cfg history (initial cfg)))).
Proof.
  rewrite run_actions_keys, initial_statistics.
  apply keys_dict_of_NoDup. constructor.
Qed.

(** The keys of [slaves_statistics] are, in every state reached from the
    initial one, the keys the class body created: each alias of
    [SLAVE_DATABASES] once, and nothing else.  No action adds, removes
    or reorders a replica. *)
Theorem registry_keys_fixed cfg history :
  let d := slaves_statistics (run_actions cfg history (initial cfg)) in
  keys d = keys (slaves_statistics (initial cfg)) /\
  NoDup (keys d) /\
  (forall x, In x (keys d) <-> In x (settings_SLAVE_DATABASES cfg)).
Proof.
  cbv zeta. rewrite run_actions_keys, initial_statistics.
  split; [reflexivity|]. split.
  - apply keys_dict_of_NoDup. constructor.
  - intros x. rewrite keys_dict_of_In. simpl. tauto.
Qed.

(** ** The state the module starts in *)

Lemma filter_all {A} (f : A -> bool) l :
  (forall x, In x l -> f x = true) -> filter f l = l.
Proof.
  induction l as [|a l IH]; simpl; intros H; [reflexivity|].
  rewrite (H a (or_introl eq_refl)). f_equal. apply IH. intros x Hx. apply H.
  now right.
Qed.

Lemma lookup_registry_ok P d k v :
  registry_ok P d -> lookup k d = Some v -> P v.
Proof.
  intros Hd Hv. apply lookup_In in Hv. unfold registry_ok in Hd.
  rewrite Forall_forall in Hd. exact (Hd _ Hv).
Qed.

Lemma lookup_of_key k d : In k (keys d) -> exists v, lookup k d = Some v.
Proof.
  intros Hk. destruct (lookup k d) as [v|] eqn:Hv; [eauto|].
  apply lookup_None in Hv. contradiction.
Qed.

(** After import every configured replica is available and was never
    disabled, no refresh is scheduled, and the iterator cycles over all
    the replicas in registry order from the first one, or repeats the
    primary alias when no replica is configured. *)
Theorem initial_state cfg :
  (forall x, In x (settings_SLAVE_DATABASES cfg) ->
             lookup x (slaves_statistics (initial cfg)) =
               Some (mkStatistics true None)) /\
  next_refresh_available_time (initial cfg) = UNIMAGINEABLE_FUTURE cfg /\
  slaves (initial cfg) =
    match keys (slaves_statistics (initial cfg)) with
    | [] => Repeat DEFAULT_DB_ALIAS
    | replicas => Cycle replicas 0
    end.
Proof.
  assert (Hall : registry_ok (fun v => v = mkStatistics true None)
                   (slaves_statistics (initial cfg))).
  { rewrite initial_statistics. apply registry_ok_dict_of;
      [reflexivity | constructor]. }
  assert (Hlookup : forall x, In x (keys (slaves_statistics (initial cfg))) ->
                              lookup x (slaves_statistics (initial cfg)) =
                                Some (mkStatistics true None)).
  { intros x Hx. destruct (lookup_of_key _ _ Hx) as (v & Hv).
    rewrite Hv. f_equal. exact (lookup_registry_ok _ _ _ _ Hall Hv). }
  split; [|split].
  - intros x Hx. apply Hlookup. rewrite initial_statistics.
    apply keys_dict_of_In. now right.
  - unfold initial. rewrite reset_slave_databases_eq. reflexivity.
  - revert Hlookup. rewrite initial_statistics.
    unfold initial. rewrite reset_slave_databases_eq. simpl.
    unfold rebuilt_slaves, reset_slave_databases. simpl.
    destruct (settings_SLAVE_DATABASES cfg) as [|db dbs] eqn:Hcfg;
      [reflexivity|].
    intros Hlookup. rewrite filter_all.
    + destruct (keys (dict_of (db :: dbs) [])) eqn:Hk; [|reflexivity].
      exfalso. assert (Hin : In db (keys (dict_of (db :: dbs) [])))
        by (apply keys_dict_of_In; right; now left).
      rewrite Hk in Hin. exact Hin.
    + intros x Hx. rewrite (Hlookup x Hx). reflexivity.
Qed.

(** ** The iterator in reachable states *)

Lemma rebuilt_slaves_valid cfg d : iterator_valid (rebuilt_slaves cfg d).
Proof.
  unfold rebuilt_slaves, reset_slave_databases; simpl.
  destruct (settings_SLAVE_DATABASES cfg) as [|db dbs]; [exact I|].
  destruct (filter _ _) as [|x saved]; simpl; [exact I | lia].
Qed.

Lemma exec_state_cases cfg op s :
  (slaves (state_of (exec cfg op s)) = slaves s) \/
  (slaves (state_of (exec cfg op s)) =
     rebuilt_slaves cfg (slaves_statistics (state_of (exec cfg op s)))).
Proof.
  destruct op as [now alias|current_time]; simpl.
  - rewrite disable_connection_eq.
    destruct (lookup alias (slaves_statistics s)); simpl; [right | left];
      reflexivity.
  - rewrite refresh_available_eq.
    destruct (refresh_loop _ _ _ _) as [d' [nr|]]; simpl; [right | left];
      reflexivity.
Qed.

Lemma run_actions_iterator_valid cfg history :
  iterator_valid (slaves (run_actions cfg history (initial cfg))).
Proof.
  apply (run_actions_preserves cfg (fun s => iterator_valid (slaves s))).
  - intros s op Hs. destruct (exec_state_cases cfg op s) as [-> | ->];
      [exact Hs | apply rebuilt_slaves_valid].
  - intros s x s1 Hs Hx.
    destruct (slaves_next_yield _ _ _ Hx)
      as [[_ ->] | (saved & cursor & Hslaves & Hnth & ->)]; [exact Hs|].
    simpl. rewrite Hslaves in Hs. simpl in Hs.
    destruct (Nat.ltb_spec (S cursor) (List.length saved)); lia.
  - unfold initial. rewrite reset_slave_databases_eq. simpl.
    apply rebuilt_slaves_valid.
Qed.

Lemma refresh_if_due_raises_KeyError cfg clock s e s' :
  refresh_if_due cfg clock s = Raise e s' -> e = KeyError.
Proof.
  destruct (refresh_if_due_as_op cfg clock s) as [H|H]; rewrite H;
    [discriminate|]. simpl. rewrite refresh_available_eq.
  destruct (refresh_loop _ _ _ _) as [d' [nr|]]; congruence.
Qed.

Lemma refresh_if_due_iterator_valid cfg clock s s0 :
  iterator_valid (slaves s) ->
  refresh_if_due cfg clock s = Ok tt s0 ->
  iterator_valid (slaves s0).
Proof.
  intros Hs Hdue.
  destruct (refresh_if_due_as_op cfg clock s) as [H|H]; rewrite H in Hdue.
  - injection Hdue as <-. exact Hs.
  - simpl in Hdue. rewrite refresh_available_eq in Hdue.
    destruct (refresh_loop _ _ _ _) as [d' [nr|]]; [|discriminate].
    injection Hdue as <-. apply rebuilt_slaves_valid.
Qed.

(** In every state reached from the initial one, the only exception a
    call of [get_slave] can raise is [KeyError]: the iterator is never
    exhausted, so [cls.slaves.next()] never raises [StopIteration]. *)
Theorem get_slave_never_StopIteration cfg history clock probe :
  outcome (get_slave cfg clock probe (run_actions cfg history (initial cfg)))
  <> Raised StopIteration.
Proof.
  pose proof (run_actions_iterator_valid cfg history) as Hvalid.
  destruct (get_slave_cases cfg clock probe (run_actions cfg history (initial cfg)))
    as [(e & s' & Hr & ->) | (s0 & Hr & Hrest)]; simpl.
  - rewrite (refresh_if_due_raises_KeyError _ _ _ _ _ Hr). discriminate.
  - pose proof (refresh_if_due_iterator_valid _ _ _ _ Hvalid Hr) as Hvalid0.
    destruct Hrest as [(e & Hnext & _) | (x & s1 & _ & [[_ ->] | [_ ->]])].
    + exfalso. unfold slaves_next in Hnext.
      destruct (slaves s0) as [saved cursor|y]; [|discriminate].
      simpl in Hvalid0. apply nth_error_Some in Hvalid0.
      destruct (nth_error saved cursor); [discriminate | congruence].
    + discriminate.
    + rewrite disable_connection_eq.
      destruct (lookup x (slaves_statistics s1)); simpl; discriminate.
Qed.

Lemma iterator_sound_next s x s1 :
  iterator_sound (slaves_statistics s) (slaves s) ->
  slaves_next s = Ok x s1 ->
  iterator_sound (slaves_statistics s1) (slaves s1) /\
  (x = DEFAULT_DB_ALIAS \/
   exists v, lookup x (slaves_statistics s) = Some v /\ available v = true).
Proof.
  intros Hs Hx.
  destruct (slaves_next_yield _ _ _ Hx)
    as [[Hslaves ->] | (saved & cursor & Hslaves & Hnth & ->)];
    rewrite Hslaves in Hs; simpl in *.
  - split; [rewrite Hslaves; exact Hs | left; exact Hs].
  - split; [exact Hs|]. right. apply (proj2 Hs). eapply nth_error_In; eauto.
Qed.

Lemma refresh_if_due_iterator_sound cfg clock s :
  iterator_sound (slaves_statistics s) (slaves s) ->
  iterator_sound (slaves_statistics (state_of (refresh_if_due cfg clock s)))
                 (slaves (state_of (refresh_if_due cfg clock s))).
Proof.
  intros Hs. destruct (refresh_if_due_state cfg clock s) as [-> | ->];
    [exact Hs | now apply exec_iterator_sound].
Qed.

(** Whatever [get_slave] returns in a state reached from the initial one
    is the primary alias or a configured replica whose probe has just
    succeeded: a replica whose probe fails is never handed out, nor is an
    alias that is not in [SLAVE_DATABASES]. *)
Theorem get_slave_returns_probed_replica cfg history clock probe a s' :
  get_slave cfg clock probe (run_actions cfg history (initial cfg)) = Ok a s' ->
  a = DEFAULT_DB_ALIAS \/
  (In a (settings_SLAVE_DATABASES cfg) /\ probe a = true).
Proof.
  intros Hget.
  pose proof (run_actions_iterator_sound cfg history) as Hsound. cbv zeta in Hsound.
  pose proof (refresh_if_due_iterator_sound cfg clock _ Hsound) as Hsound0.
  destruct (get_slave_cases cfg clock probe (run_actions cfg history (initial cfg)))
    as [(e & s1 & _ & Hr) | (s0 & Hdue & Hrest)]; [congruence|].
  rewrite Hdue in Hsound0. simpl in Hsound0.
  destruct Hrest as [(e & _ & Hr) | (x & s1 & Hx & Hrest)]; [congruence|].
  destruct (iterator_sound_next _ _ _ Hsound0 Hx) as [_ Hyield].
  destruct Hrest as [[Hprobe Hr] | [_ Hr]]; rewrite Hr in Hget.
  - injection Hget as <- <-.
    destruct Hyield as [Hd | (v & Hv & _)]; [now left | right].
    split; [|exact Hprobe].
    apply lookup_In_keys in Hv.
    assert (Hkeys : keys (slaves_statistics s0) =
                    keys (slaves_statistics (initial cfg))).
    { pose proof (refresh_if_due_state cfg clock
                    (run_actions cfg history (initial cfg))) as Hst.
      rewrite Hdue in Hst. cbn [state_of] in Hst.
      destruct Hst as [-> | ->]; [|rewrite exec_keys]; apply run_actions_keys. }
    rewrite Hkeys, initial_statistics in Hv.
    apply keys_dict_of_In in Hv. simpl in Hv. tauto.
  - left. destruct (disable_connection cfg (now_disable clock) x s1);
      congruence.
Qed.

Lemma get_slave_returns_probed_replica_witness :
  let s := run_actions cfg_two [Call (at_time 0) (probe_except "r1")]
                       (initial cfg_two) in
  let s' := set_slaves (Cycle ["r2"] 0) s in
  get_slave cfg_two (at_time (sec 10)) probe_all s = Ok "r2" s' /\
  ("r2" = DEFAULT_DB_ALIAS \/
   (In "r2" (settings_SLAVE_DATABASES cfg_two) /\ probe_all "r2" = true)).
Proof.
  cbv zeta. split; [reflexivity|].
  apply (get_slave_returns_probed_replica cfg_two
           [Call (at_time 0) (probe_except "r1")] (at_time (sec 10)) probe_all
           "r2" _ eq_refl).
Defined.

(** ** Round robin *)

Lemma next_cursor_mod (cursor len : nat) :
  (cursor < len)%nat ->
  (if Nat.ltb (S cursor) len then S cursor else O) = (S cursor mod len)%nat.
Proof.
  intros Hlt. destruct (Nat.ltb_spec (S cursor) len).
  - symmetry. now apply Nat.mod_small.
  - assert (S cursor = len) as -> by lia. symmetry. apply Nat.Div0.mod_same.
Qed.

Lemma rotation_S saved cursor n :
  (cursor < List.length saved)%nat ->
  rotation saved cursor (S n) =
  Returned (nth cursor saved DEFAULT_DB_ALIAS)
  :: rotation saved (S cursor mod List.length saved) n.
Proof.
  intros Hlt. unfold rotation. rewrite <- cons_seq. simpl map.
  rewrite Nat.add_0_r, (Nat.mod_small _ _ Hlt). f_equal.
  rewrite <- seq_shift, map_map. apply map_ext. intros i.
  rewrite Nat.Div0.add_mod_idemp_l.
  replace (cursor + S i)%nat with (S cursor + i)%nat by lia. reflexivity.
Qed.

Lemma get_slave_healthy cfg s saved cursor c :
  slaves s = Cycle saved cursor ->
  (cursor < List.length saved)%nat ->
  healthy_call (next_refresh_available_time s) saved c = true ->
  get_slave cfg (fst c) (snd c) s =
  Ok (nth cursor saved DEFAULT_DB_ALIAS)
     (set_slaves (Cycle saved (S cursor mod List.length saved)) s).
Proof.
  intros Hslaves Hlt Hcall. unfold healthy_call in Hcall.
  apply andb_prop in Hcall as [Hguard Hprobe]. apply Z.leb_le in Hguard.
  rewrite (get_slave_after_refresh _ _ _ _ _ (refresh_if_due_not_due cfg _ _ Hguard)).
  unfold probe_candidate, bind, slaves_next. rewrite Hslaves.
  rewrite (nth_error_nth' saved DEFAULT_DB_ALIAS Hlt).
  rewrite forallb_forall in Hprobe.
  rewrite (Hprobe _ (nth_In saved DEFAULT_DB_ALIAS Hlt)).
  rewrite (next_cursor_mod _ _ Hlt). reflexivity.
Qed.

(** While no refresh is due and the probes of the replicas in rotation
    succeed, successive calls of [get_slave] hand out those replicas one
    after the other in registry order, wrapping round after the last;
    the registry and the deadline are not touched, only the cursor
    moves on by the number of calls. *)
Theorem round_robin cfg s saved cursor calls :
  slaves s = Cycle saved cursor ->
  (cursor < List.length saved)%nat ->
  forallb (healthy_call (next_refresh_available_time s) saved) calls = true ->
  run_calls cfg calls s =
  (rotation saved cursor (List.length calls),
   set_slaves (Cycle saved ((cursor + List.length calls) mod List.length saved)) s).
Proof.
  revert s cursor.
  induction calls as [|c tl IH]; intros s cursor Hslaves Hlt Hcalls.
  - simpl. rewrite Nat.add_0_r, (Nat.mod_small _ _ Hlt).
    destruct s; simpl in *; subst; reflexivity.
  - simpl in Hcalls. apply andb_prop in Hcalls as [Hc Htl].
    pose proof (get_slave_healthy cfg s saved cursor c Hslaves Hlt Hc) as Hget.
    destruct c as [clock probe]. simpl in Hget.
    cbn [run_calls]. rewrite Hget. cbn [state_of outcome].
    assert (Hlt' : (S cursor mod List.length saved < List.length saved)%nat)
      by (apply Nat.mod_upper_bound; lia).
    rewrite (IH (set_slaves (Cycle saved (S cursor mod List.length saved)) s)
                (S cursor mod List.length saved)%nat eq_refl Hlt' Htl).
    cbn [List.length]. rewrite (rotation_S _ _ _ Hlt).
    rewrite Nat.Div0.add_mod_idemp_l.
    replace (S cursor + List.length tl)%nat with (cursor + S (List.length tl))%nat
      by lia.
    reflexivity.
Qed.

Lemma round_robin_witness :
  let calls := [(at_time 0, probe_all); (at_time (sec 5), probe_all);
                (at_time (sec 9), probe_all)] in
  slaves (initial cfg_two) = Cycle ["r1"; "r2"] 0 /\
  (0 < List.length ["r1"; "r2"])%nat /\
  forallb (healthy_call (next_refresh_available_time (initial cfg_two))
                        ["r1"; "r2"]) calls = true /\
  run_calls cfg_two calls (initial cfg_two) =
  ([Returned "r1"; Returned "r2"; Returned "r1"],
   set_slaves (Cycle ["r1"; "r2"] 1) (initial cfg_two)).
Proof.
  cbv zeta. split; [reflexivity|]. split; [simpl; lia|]. split; [reflexivity|].
  apply (round_robin cfg_two (initial cfg_two) ["r1"; "r2"] 0%nat);
    [reflexivity | simpl; lia | reflexivity].
Defined.

(** ** When [refresh_available] raises *)

Lemma refresh_loop_incomplete cfg current_time d next_refresh :
  all_recorded d = false ->
  snd (refresh_loop cfg current_time d next_refresh) = None.
Proof.
  revert next_refresh.
  induction d as [|[k v] tl IH]; intros next_refresh Hrec; [discriminate|].
  simpl in Hrec. simpl.
  destruct (reconnect v) as [r|]; [|reflexivity]. simpl in Hrec.
  destruct (negb (available v) && (r <? current_time)).
  - specialize (IH next_refresh Hrec).
    destruct (refresh_loop cfg current_time tl next_refresh); exact IH.
  - specialize (IH (Z.min next_refresh r) Hrec).
    destruct (refresh_loop cfg current_time tl (Z.min next_refresh r)); exact IH.
Qed.

Lemma refresh_loop_all_recorded cfg current_time d next_refresh :
  all_recorded (fst (refresh_loop cfg current_time d next_refresh)) =
  all_recorded d.
Proof.
  revert next_refresh.
  induction d as [|[k v] tl IH]; intros next_refresh; [reflexivity|].
  simpl. destruct (reconnect v) as [r|] eqn:Hr; [|simpl; rewrite Hr; reflexivity].
  destruct (negb (available v) && (r <? current_time)).
  - specialize (IH next_refresh).
    destruct (refresh_loop cfg current_time tl next_refresh); simpl in *.
    exact IH.
  - specialize (IH (Z.min next_refresh r)).
    destruct (refresh_loop cfg current_time tl (Z.min next_refresh r)); simpl in *.
    rewrite Hr. exact IH.
Qed.

Lemma refresh_available_outcome cfg current_time s :
  match refresh_available cfg current_time s with
  | Ok _ _ => all_recorded (slaves_statistics s) = true
  | Raise e _ => e = KeyError /\ all_recorded (slaves_statistics s) = false
  end.
Proof.
  rewrite refresh_available_eq.
  destruct (all_recorded (slaves_statistics s)) eqn:Hrec.
  - rewrite (refresh_loop_complete _ _ _ _ Hrec). reflexivity.
  - pose proof (refresh_loop_incomplete cfg current_time _
                  (UNIMAGINEABLE_FUTURE cfg) Hrec) as Hnone.
    destruct (refresh_loop _ _ _ _) as [d' res]. simpl in *. subst res.
    split; reflexivity.
Qed.

(** [refresh_available] returns normally exactly when every replica has
    a ['reconnect'] entry.  Otherwise it raises [KeyError] having reset
    the deadline to the sentinel and without rebuilding the iterator, and
    the entry that made it raise is still there, so that the next refresh
    raises again. *)
Theorem refresh_available_raises_iff cfg current_time s :
  match refresh_available cfg current_time s with
  | Ok _ s' =>
      all_recorded (slaves_statistics s) = true /\
      all_recorded (slaves_statistics s') = true
  | Raise e s' =>
      e = KeyError /\
      all_recorded (slaves_statistics s) = false /\
      all_recorded (slaves_statistics s') = false /\
      next_refresh_available_time s' = UNIMAGINEABLE_FUTURE cfg /\
      slaves s' = slaves s
  end.
Proof.
  rewrite refresh_available_eq.
  pose proof (refresh_loop_all_recorded cfg current_time (slaves_statistics s)
                (UNIMAGINEABLE_FUTURE cfg)) as Hsame.
  destruct (all_recorded (slaves_statistics s)) eqn:Hrec.
  - rewrite (refresh_loop_complete _ _ _ _ Hrec) in *. simpl in *. auto.
  - pose proof (refresh_loop_incomplete cfg current_time _
                  (UNIMAGINEABLE_FUTURE cfg) Hrec) as Hnone.
    destruct (refresh_loop _ _ _ _) as [d' res]. simpl in *. subst res.
    simpl. auto.
Qed.

Lemma In_lookup k v d : NoDup (keys d) -> In (k, v) d -> lookup k d = Some v.
Proof.
  unfold keys. induction d as [|[k' v'] tl IH]; simpl; [tauto|].
  intros Hnd [H|H]; inversion Hnd as [|? ? Hnot Hnd']; subst.
  - injection H as -> ->. now rewrite String.eqb_refl.
  - destruct (String.eqb k k') eqn:E; [|now apply IH].
    apply String.eqb_eq in E. subst k'. exfalso. apply Hnot.
    change k with (fst (k, v)). now apply in_map.
Qed.

Lemma all_recorded_false d :
  all_recorded d = false <->
  exists kv, In kv d /\ reconnect (snd kv) = None.
Proof.
  unfold all_recorded. induction d as [|[k v] tl IH]; simpl.
  - split; [discriminate | intros (kv & [] & _)].
  - destruct (reconnect v) eqn:Hr; simpl.
    + rewrite IH. split.
      * intros (kv & Hin & Hkv). exists kv. auto.
      * intros (kv & [<-|Hin] & Hkv); [simpl in Hkv; congruence|].
        exists kv. auto.
    + split; [|reflexivity]. intros _. exists (k, v). auto.
Qed.

Lemma exec_recorded cfg op s :
  registry_ok recorded_if_unavailable (slaves_statistics s) ->
  registry_ok recorded_if_unavailable (slaves_statistics (state_of (exec cfg op s))).
Proof.
  intros Hs. destruct op as [now alias|current_time]; simpl.
  - rewrite disable_connection_eq.
    destruct (lookup alias (slaves_statistics s)); simpl; [|exact Hs].
    apply registry_ok_update; [exact Hs|]. intros v _. simpl. eauto.
  - rewrite refresh_available_eq.
    assert (Hloop : forall d next_refresh,
               registry_ok recorded_if_unavailable d ->
               registry_ok recorded_if_unavailable
                 (fst (refresh_loop cfg current_time d next_refresh))).
    { intros d next_refresh Hd. revert next_refresh.
      induction Hd as [|[k v] tl Hv Htl IH]; intros next_refresh; simpl;
        [constructor|].
      destruct (reconnect v) as [r|]; [|constructor; assumption].
      destruct (negb (available v) && (r <? current_time)).
      - specialize (IH next_refresh).
        destruct (refresh_loop cfg current_time tl next_refresh).
        constructor; [intros Hc; discriminate | exact IH].
      - specialize (IH (Z.min next_refresh r)).
        destruct (refresh_loop cfg current_time tl (Z.min next_refresh r)).
        constructor; [exact Hv | exact IH]. }
    specialize (Hloop (slaves_statistics s) (UNIMAGINEABLE_FUTURE cfg) Hs).
    destruct (refresh_loop _ _ _ _) as [d' [nr|]]; exact Hloop.
Qed.

Lemma run_actions_recorded cfg history :
  registry_ok recorded_if_unavailable
              (slaves_statistics (run_actions cfg history (initial cfg))).
Proof.
  apply (run_actions_preserves cfg
           (fun s => registry_ok recorded_if_unavailable (slaves_statistics s))).
  - intros s op. apply exec_recorded.
  - intros s x s1 Hs Hx. destruct (slaves_next_frame _ _ _ Hx) as [-> _].
    exact Hs.
  - rewrite initial_statistics. apply registry_ok_dict_of; [|constructor].
    intros Hc; discriminate.
Qed.

(** In a state reached from the initial one, [refresh_available] raises
    [KeyError] exactly when some replica is still as the class body
    created it, available and never disabled; an unavailable replica
    always has its reconnect time. *)
Theorem refresh_raises_while_never_disabled cfg history current_time :
  let s := run_actions cfg history (initial cfg) in
  Forall (fun kv => available (snd kv) = false ->
                    exists r, reconnect (snd kv) = Some r)
         (slaves_statistics s) /\
  ((exists s', refresh_available cfg current_time s = Raise KeyError s') <->
   (exists x, lookup x (slaves_statistics s) = Some (mkStatistics true None))).
Proof.
  intros s. pose proof (run_actions_recorded cfg history) as Hrec. fold s in Hrec.
  split; [exact Hrec|].
  pose proof (refresh_available_outcome cfg current_time s) as Hiff.
  split.
  - intros (s' & Hraise). rewrite Hraise in Hiff.
    destruct Hiff as (_ & Hfalse).
    apply all_recorded_false in Hfalse as ([k v] & Hin & Hnone). simpl in Hnone.
    exists k. rewrite (In_lookup k v); [|apply (run_actions_keys_NoDup cfg history)|exact Hin].
    f_equal. unfold registry_ok in Hrec. rewrite Forall_forall in Hrec.
    specialize (Hrec _ Hin). simpl in Hrec. unfold recorded_if_unavailable in Hrec.
    destruct v as [[|] rc]; simpl in *; [congruence|].
    destruct (Hrec eq_refl) as (r & Hr). congruence.
  - intros (x & Hx).
    assert (Hfalse : all_recorded (slaves_statistics s) = false).
    { apply all_recorded_false. exists (x, mkStatistics true None).
      split; [now apply lookup_In | reflexivity]. }
    destruct (refresh_available cfg current_time s) as [[] s'|e s'].
    + congruence.
    + destruct Hiff as (-> & _). eauto.
Qed.

(** ** What the maintenance methods leave alone *)

Lemma refresh_loop_entry cfg current_time d next_refresh x v :
  lookup x d = Some v ->
  exists v',
    lookup x (fst (refresh_loop cfg current_time d next_refresh)) = Some v' /\
    (v' = v \/
     (available v = false /\
      (exists r, reconnect v = Some r /\ r < current_time) /\
      v' = mkStatistics true (Some (UNIMAGINEABLE_FUTURE cfg)))).
Proof.
  revert next_refresh.
  induction d as [|[k w] tl IH]; intros next_refresh Hv; [discriminate|].
  simpl in Hv. simpl.
  destruct (reconnect w) as [rw|] eqn:Hrw.
  2:{ simpl. exists v. split; [exact Hv | now left]. }
  destruct (negb (available w) && (rw <? current_time)) eqn:Hcond.
  - destruct (refresh_loop cfg current_time tl next_refresh) as [tl' res] eqn:Htl.
    simpl. destruct (String.eqb x k).
    + injection Hv as <-. eexists; split; [reflexivity|]. right.
      apply andb_prop in Hcond as [Hav Hlt].
      apply negb_true_iff in Hav. apply Z.ltb_lt in Hlt.
      split; [exact Hav|]. split; [eauto | reflexivity].
    + specialize (IH next_refresh Hv). rewrite Htl in IH. exact IH.
  - destruct (refresh_loop cfg current_time tl (Z.min next_refresh rw))
      as [tl' res] eqn:Htl.
    simpl. destruct (String.eqb x k).
    + exists v. split; [exact Hv | now left].
    + specialize (IH (Z.min next_refresh rw) Hv). rewrite Htl in IH. exact IH.
Qed.

(** [refresh_available], whether it returns or raises, changes an entry
    of the registry in one way only: an unavailable replica whose
    reconnect time is strictly before the clock reading becomes
    available with the sentinel as reconnect time.  It never makes a
    replica unavailable and never alters any other entry. *)
Theorem refresh_available_only_readmits cfg current_time s x v :
  lookup x (slaves_statistics s) = Some v ->
  exists v',
    lookup x (slaves_statistics (state_of (refresh_available cfg current_time s))) =
      Some v' /\
    (v' = v \/
     (available v = false /\
      (exists r, reconnect v = Some r /\ r < current_time) /\
      v' = mkStatistics true (Some (UNIMAGINEABLE_FUTURE cfg)))).
Proof.
  intros Hv. rewrite refresh_available_eq.
  pose proof (refresh_loop_entry cfg current_time (slaves_statistics s)
                (UNIMAGINEABLE_FUTURE cfg) x v Hv) as Hloop.
  destruct (refresh_loop _ _ _ _) as [d' [nr|]]; exact Hloop.
Qed.

Lemma refresh_available_only_readmits_witness :
  let s := state_of (disable_connection cfg_two 0 "r1" (initial cfg_two)) in
  lookup "r1" (slaves_statistics s) = Some (mkStatistics false (Some (sec 60))) /\
  exists v',
    lookup "r1" (slaves_statistics (state_of (refresh_available cfg_two (sec 61) s))) =
      Some v' /\
    (v' = mkStatistics false (Some (sec 60)) \/
     (available (mkStatistics false (Some (sec 60))) = false /\
      (exists r, reconnect (mkStatistics false (Some (sec 60))) = Some r /\
                 r < sec 61) /\
      v' = mkStatistics true (Some (UNIMAGINEABLE_FUTURE cfg_two)))).
Proof.
  cbv zeta. split; [reflexivity|].
  apply (refresh_available_only_readmits cfg_two (sec 61)
           (state_of (disable_connection cfg_two 0 "r1" (initial cfg_two))) "r1").
  reflexivity.
Defined.

(** [disable_connection] on an alias that is not a key of the registry
    raises [KeyError] and changes nothing.  On a key it returns, leaves
    that replica unavailable with reconnect time [now + RECONNECT_TIME],
    touches no other entry and no key, moves the deadline to the earlier
    of its old value and the new reconnect time, and installs the
    iterator rebuilt from the new registry, which (unless the alias is
    the primary one) no longer yields the replica. *)
Theorem disable_connection_effect cfg now alias s :
  match lookup alias (slaves_statistics s) with
  | None => disable_connection cfg now alias s = Raise KeyError s
  | Some _ =>
      exists s',
        disable_connection cfg now alias s = Ok tt s' /\
        lookup alias (slaves_statistics s') =
          Some (mkStatistics false (Some (now + RECONNECT_TIME cfg))) /\
        (forall k, k <> alias ->
                   lookup k (slaves_statistics s') = lookup k (slaves_statistics s)) /\
        keys (slaves_statistics s') = keys (slaves_statistics s) /\
        next_refresh_available_time s' =
          Z.min (next_refresh_available_time s) (now + RECONNECT_TIME cfg) /\
        slaves s' = rebuilt_slaves cfg (slaves_statistics s') /\
        (alias <> DEFAULT_DB_ALIAS -> cycle_avoids alias (slaves s'))
  end.
Proof.
  rewrite disable_connection_eq.
  destruct (lookup alias (slaves_statistics s)) as [v|] eqn:Hv; [|reflexivity].
  cbv zeta. eexists. split; [reflexivity|]. simpl.
  pose proof (lookup_update_same alias
                (fun _ => mkStatistics false (Some (now + RECONNECT_TIME cfg)))
                _ _ Hv) as Hv'.
  split; [exact Hv'|].
  split; [intros k Hk; now apply lookup_update_other|].
  split; [apply keys_update|].
  split; [reflexivity|]. split; [reflexivity|].
  intros Hne. eapply rebuilt_slaves_avoids; eauto.
Qed.

(** ** Recovery *)

(** Once the backoff of a disabled replica has run out, the next call of
    [get_slave] (with every replica having a reconnect entry and the
    probes succeeding) runs the refresh, puts the replica back among the
    available ones and returns an available replica rather than the
    primary fallback. *)
Theorem recovery_after_backoff cfg now id s0 s1 clock probe :
  settings_SLAVE_DATABASES cfg <> [] ->
  disable_connection cfg now id s0 = Ok tt s1 ->
  all_recorded (slaves_statistics s1) = true ->
  now + RECONNECT_TIME cfg < now_guard clock ->
  now + RECONNECT_TIME cfg < now_refresh clock ->
  (forall x, In x (keys (slaves_statistics s1)) -> probe x = true) ->
  exists a s2,
    get_slave cfg clock probe s1 = Ok a s2 /\
    lookup id (slaves_statistics s2) =
      Some (mkStatistics true (Some (UNIMAGINEABLE_FUTURE cfg))) /\
    (exists v, lookup a (slaves_statistics s2) = Some v /\ available v = true).
Proof.
  intros Hcfg Hdisable Hrec Hguard Hrefresh Hprobe.
  pose proof (disable_connection_eq cfg now id s0) as Heq.
  rewrite Hdisable in Heq.
  destruct (lookup id (slaves_statistics s0)) as [v|] eqn:Hv; [|discriminate].
  cbv zeta in Heq. injection Heq as Hs1.
  assert (Hid : lookup id (slaves_statistics s1) =
                Some (mkStatistics false (Some (now + RECONNECT_TIME cfg)))).
  { rewrite Hs1. simpl. apply lookup_update_same with (1 := Hv). }
  assert (Hnext : next_refresh_available_time s1 < now_guard clock).
  { rewrite Hs1. simpl. lia. }
  set (d' := map (refresh_entry cfg (now_refresh clock)) (slaves_statistics s1)).
  assert (Hid' : lookup id d' =
                 Some (mkStatistics true (Some (UNIMAGINEABLE_FUTURE cfg)))).
  { unfold d'. rewrite (lookup_refresh_entry cfg _ id _ _ Hid).
    unfold refresh_entry, readmitted; simpl.
    destruct (Z.ltb_spec (now + RECONNECT_TIME cfg) (now_refresh clock)); [|lia].
    reflexivity. }
  destruct (rebuilt_slaves_member cfg id d' _ Hcfg Hid' eq_refl)
    as (saved & Hsaved & Hin).
  pose proof (rebuilt_slaves_sound cfg d') as Hsound. rewrite Hsaved in Hsound.
  destruct Hsound as [_ Hall].
  destruct saved as [|a saved]; [contradiction|].
  destruct (Hall a (or_introl eq_refl)) as (va & Hva & Hava).
  assert (Hkeys : keys d' = keys (slaves_statistics s1)).
  { pose proof (refresh_loop_keys cfg (now_refresh clock) (slaves_statistics s1)
                  (UNIMAGINEABLE_FUTURE cfg)) as Hk.
    rewrite (refresh_loop_complete _ _ _ _ Hrec) in Hk. exact Hk. }
  assert (Hpa : probe a = true).
  { apply Hprobe. rewrite <- Hkeys. eapply lookup_In_keys; eauto. }
  assert (Hdue : refresh_if_due cfg clock s1 =
                 Ok tt (mkState d'
                          (Z.min (UNIMAGINEABLE_FUTURE cfg)
                             (fold_left Z.min
                                (kept_deadlines (now_refresh clock)
                                                (slaves_statistics s1))
                                (UNIMAGINEABLE_FUTURE cfg)))
                          (Cycle (a :: saved) 0))).
  { rewrite (refresh_if_due_due _ _ _ Hnext), refresh_available_eq.
    rewrite (refresh_loop_complete _ _ _ _ Hrec). fold d'. rewrite Hsaved.
    reflexivity. }
  rewrite (get_slave_after_refresh _ _ _ _ _ Hdue).
  unfold probe_candidate, bind, slaves_next. simpl. rewrite Hpa.
  eexists; eexists. split; [reflexivity|]. simpl.
  split; [exact Hid' | eauto].
Qed.

Lemma recovery_after_backoff_witness :
  let s0 := state_of (disable_connection cfg_two 0 "r2" (initial cfg_two)) in
  let s1 := state_of (disable_connection cfg_two (sec 5) "r1" s0) in
  settings_SLAVE_DATABASES cfg_two <> [] /\
  disable_connection cfg_two (sec 5) "r1" s0 = Ok tt s1 /\
  all_recorded (slaves_statistics s1) = true /\
  exists a s2,
    get_slave cfg_two (at_time (sec 66)) probe_all s1 = Ok a s2 /\
    lookup "r1" (slaves_statistics s2) =
      Some (mkStatistics true (Some (UNIMAGINEABLE_FUTURE cfg_two))) /\
    (exists v, lookup a (slaves_statistics s2) = Some v /\ available v = true).
Proof.
  cbv zeta. split; [discriminate|]. split; [reflexivity|]. split; [reflexivity|].
  apply (recovery_after_backoff cfg_two (sec 5) "r1"
           (state_of (disable_connection cfg_two 0 "r2" (initial cfg_two))));
    try reflexivity; try discriminate.
Defined.

(** ** Module import *)

Lemma dict_get_set_same {A} k (v : A) d : dict_get k (dict_set k v d) = Some v.
Proof.
  induction d as [|[k' v'] tl IH]; simpl; [now rewrite String.eqb_refl|].
  destruct (String.eqb k k') eqn:E; simpl; rewrite E; [reflexivity | exact IH].
Qed.

Lemma dict_get_set_other {A} k k' (v : A) d :
  k' <> k -> dict_get k' (dict_set k v d) = dict_get k' d.
Proof.
  intros Hne. induction d as [|[k0 v0] tl IH]; simpl.
  - apply String.eqb_neq in Hne. now rewrite Hne.
  - destruct (String.eqb k k0) eqn:E; simpl.
    + apply String.eqb_eq in E; subst k0.
      apply String.eqb_neq in Hne; rewrite Hne; reflexivity.
    + destruct (String.eqb k' k0); [reflexivity | exact IH].
Qed.

Lemma dict_set_keys {A} k (v w : A) d :
  dict_get k d = Some w -> map fst (dict_set k v d) = map fst d.
Proof.
  induction d as [|[k' v'] tl IH]; simpl; [discriminate|].
  destruct (String.eqb k k'); simpl; [reflexivity|].
  intros H. now rewrite IH.
Qed.

Lemma dict_get_key {A} k (d : list (string * A)) :
  dict_get k d = None <-> ~ In k (map fst d).
Proof.
  induction d as [|[k' v] tl IH]; simpl; [tauto|].
  destruct (String.eqb k k') eqn:E.
  - apply String.eqb_eq in E. subst. split; [discriminate | tauto].
  - apply String.eqb_neq in E. rewrite IH. split; [|tauto].
    intros H [H'|H']; [congruence | tauto].
Qed.

Section TestMirrorProperties.

Variable Value : Type.
Variable str : string -> Value.

Lemma mirror_step db options DATABASES x :
  dict_get db DATABASES = Some options ->
  (x = db \/ mirrors_primary Value str DATABASES x) ->
  mirrors_primary Value str
    (dict_set db (dict_set "TEST_MIRROR" (str DEFAULT_DB_ALIAS) options)
              DATABASES) x.
Proof.
  intros Hdb Hx. unfold mirrors_primary.
  destruct (String.eqb_spec x db) as [->|Hne].
  - eexists. split; [apply dict_get_set_same | apply dict_get_set_same].
  - destruct Hx as [?|(o & Ho & Hm)]; [contradiction|].
    exists o. split; [|exact Hm]. now rewrite dict_get_set_other.
Qed.

Lemma test_mirror_loop_spec dbs DATABASES done :
  (forall x, In x done -> mirrors_primary Value str DATABASES x) ->
  match test_mirror_loop Value str dbs DATABASES with
  | (DATABASES', true) =>
      (forall x, In x done \/ In x dbs ->
                 mirrors_primary Value str DATABASES' x) /\
      map fst DATABASES' = map fst DATABASES /\
      (forall x, In x dbs -> In x (map fst DATABASES))
  | (DATABASES', false) =>
      (forall x, In x done -> mirrors_primary Value str DATABASES' x) /\
      map fst DATABASES' = map fst DATABASES /\
      (exists x, In x dbs /\ ~ In x (map fst DATABASES))
  end.
Proof.
  revert DATABASES done.
  induction dbs as [|db tl IH]; intros DATABASES done Hdone; simpl.
  - split; [intros x [H|[]]; auto|]. split; [reflexivity | tauto].
  - destruct (dict_get db DATABASES) as [options|] eqn:Hdb.
    + set (D1 := dict_set db (dict_set "TEST_MIRROR" (str DEFAULT_DB_ALIAS) options)
                          DATABASES).
      assert (Hkeys : map fst D1 = map fst DATABASES)
        by (unfold D1; eapply dict_set_keys; eauto).
      specialize (IH D1 (db :: done)).
      assert (Hdone1 : forall x, In x (db :: done) ->
                                 mirrors_primary Value str D1 x).
      { intros x [<-|Hx]; apply mirror_step; auto. }
      specialize (IH Hdone1).
      destruct (test_mirror_loop Value str tl D1) as [D' [|]].
      * destruct IH as (Hall & Hk & Hin). rewrite Hkeys in Hk, Hin.
        split; [|split; [exact Hk|]].
        -- intros x [Hx|[<-|Hx]]; apply Hall; simpl; tauto.
        -- intros x [<-|Hx]; [|now apply Hin].
           destruct (in_dec string_dec db (map fst DATABASES)) as [?|Hn];
             [assumption|]. apply dict_get_key in Hn. congruence.
      * destruct IH as (Hall & Hk & (x & Hx & Hn)). rewrite Hkeys in Hk, Hn.
        split; [intros y Hy; apply Hall; now right|].
        split; [exact Hk|]. exists x. split; [now right | exact Hn].
    + split; [exact Hdone|]. split; [reflexivity|].
      exists db. split; [now left | now apply dict_get_key].
Qed.

(** The import-time loop over [SLAVE_DATABASES] runs to its end exactly
    when every replica alias is a key of [settings.DATABASES]; it then
    has set ['TEST_MIRROR'] to the primary alias for every replica and
    has neither added nor removed a database.  When an alias is
    missing, [settings.DATABASES[db]] raises [KeyError]. *)
Theorem test_mirror_loop_outcome dbs DATABASES :
  match test_mirror_loop Value str dbs DATABASES with
  | (DATABASES', true) =>
      (forall x, In x dbs -> mirrors_primary Value str DATABASES' x) /\
      map fst DATABASES' = map fst DATABASES /\
      (forall x, In x dbs -> In x (map fst DATABASES))
  | (DATABASES', false) =>
      map fst DATABASES' = map fst DATABASES /\
      (exists x, In x dbs /\ ~ In x (map fst DATABASES))
  end.
Proof.
  pose proof (test_mirror_loop_spec dbs DATABASES []
                (fun x (H : In x []) => match H with end)) as Hspec.
  destruct (test_mirror_loop Value str dbs DATABASES) as [D' [|]].
  - destruct Hspec as (Hall & Hk & Hin). split; [|split]; auto.
  - destruct Hspec as (_ & Hk & Hex). split; auto.
Qed.

End TestMirrorProperties.

(** ** The routers *)

Lemma allow_syncdb_iff (db : string) :
  MasterSlaveRouter_allow_syncdb db = true <-> db = MasterSlaveRouter_db_for_write.
Proof. apply String.eqb_eq. Qed.

(** Reads of pinned threads are invisible to the rotation: in any mix
    of pinned and unpinned reads through [PinningMasterSlaveRouter], the
    pinned ones all get the primary alias, and the unpinned ones get the
    same results, and leave the same state, as if they had been the only
    calls of [get_slave]. *)
Theorem pinned_reads_do_not_advance cfg reads s :
  run_reads cfg reads s =
  (with_pinned reads (fst (run_calls cfg (unpinned reads) s)),
   snd (run_calls cfg (unpinned reads) s)).
Proof.
  revert s. unfold unpinned.
  induction reads as [|[[|] [clock probe]] tl IH]; intros s; simpl.
  - reflexivity.
  - rewrite IH. reflexivity.
  - specialize (IH (state_of (get_slave cfg clock probe s))).
    rewrite IH.
    destruct (run_calls cfg (map snd (filter (fun r => negb (fst r)) tl))
                        (state_of (get_slave cfg clock probe s)))
      as [outs s']. reflexivity.
Qed.

(** ** When [get_slave] cannot fail *)

Lemma refresh_if_due_sound_valid cfg history clock s0 :
  refresh_if_due cfg clock (run_actions cfg history (initial cfg)) = Ok tt s0 ->
  iterator_sound (slaves_statistics s0) (slaves s0) /\
  iterator_valid (slaves s0).
Proof.
  intros Hdue. split.
  - pose proof (refresh_if_due_iterator_sound cfg clock _
                  (run_actions_iterator_sound cfg history)) as H.
    rewrite Hdue in H. exact H.
  - exact (refresh_if_due_iterator_valid _ _ _ _
             (run_actions_iterator_valid cfg history) Hdue).
Qed.

Lemma slaves_next_valid s :
  iterator_valid (slaves s) -> exists x s1, slaves_next s = Ok x s1.
Proof.
  unfold slaves_next. destruct (slaves s) as [saved cursor|y]; simpl; [|eauto].
  intros Hlt. apply nth_error_Some in Hlt.
  destruct (nth_error saved cursor); [eauto | congruence].
Qed.

(** In a state reached from the initial one, a call of [get_slave]
    returns an alias, and raises nothing, whenever the probe of the
    primary succeeds and the refresh either is not due or finds a
    reconnect entry on every replica. *)
Theorem get_slave_returns_when_primary_up cfg history clock probe :
  let s := run_actions cfg history (initial cfg) in
  probe DEFAULT_DB_ALIAS = true ->
  now_guard clock <= next_refresh_available_time s \/
  all_recorded (slaves_statistics s) = true ->
  exists a s', get_slave cfg clock probe s = Ok a s'.
Proof.
  intros s Hprimary Hrefresh.
  assert (Hdue : exists s0, refresh_if_due cfg clock s = Ok tt s0).
  { destruct (refresh_if_due_as_op cfg clock s) as [H|H]; [eauto|].
    destruct Hrefresh as [Hguard|Hrec];
      [rewrite refresh_if_due_not_due by exact Hguard; eauto|].
    rewrite H. simpl.
    pose proof (refresh_available_outcome cfg (now_refresh clock) s) as Hiff.
    destruct (refresh_available cfg (now_refresh clock) s) as [[] s0|e s0];
      [eauto|]. destruct Hiff as (_ & Hfalse). congruence. }
  destruct Hdue as (s0 & Hdue).
  destruct (refresh_if_due_sound_valid cfg history clock s0 Hdue)
    as [Hsound Hvalid].
  destruct (slaves_next_valid s0 Hvalid) as (x & s1 & Hx).
  rewrite (get_slave_after_refresh _ _ _ _ _ Hdue).
  unfold probe_candidate, bind. rewrite Hx.
  destruct (probe x) eqn:Hprobe; [eexists; eexists; reflexivity|].
  destruct (iterator_sound_next _ _ _ Hsound Hx) as [_ [Hd | (v & Hv & _)]];
    [congruence|].
  destruct (slaves_next_frame _ _ _ Hx) as [Hstat _].
  rewrite disable_connection_eq, Hstat, Hv. cbv zeta.
  eexists; eexists; reflexivity.
Qed.

Lemma get_slave_returns_when_primary_up_witness :
  let s := run_actions cfg_two [Call (at_time 0) (probe_except "r1")]
                       (initial cfg_two) in
  probe_except "r2" DEFAULT_DB_ALIAS = true /\
  (now_guard (at_time (sec 10)) <= next_refresh_available_time s \/
   all_recorded (slaves_statistics s) = true) /\
  exists a s', get_slave cfg_two (at_time (sec 10)) (probe_except "r2") s = Ok a s'.
Proof.
  cbv zeta. split; [reflexivity|].
  split; [left; vm_compute; discriminate|].
  apply (get_slave_returns_when_primary_up cfg_two
           [Call (at_time 0) (probe_except "r1")] (at_time (sec 10))
           (probe_except "r2")); [reflexivity|].
  left; vm_compute; discriminate.
Defined.

(** In a state reached from the initial one, when the candidate drawn
    from a cycling iterator fails its probe, [get_slave] returns the
    primary alias for this call, records the candidate as unavailable
    with reconnect time [now + RECONNECT_TIME], leaves every other
    replica as it was and rebuilds the iterator without the candidate. *)
Theorem failed_replica_is_disabled cfg history clock probe s0 saved cursor x :
  refresh_if_due cfg clock (run_actions cfg history (initial cfg)) = Ok tt s0 ->
  slaves s0 = Cycle saved cursor ->
  nth_error saved cursor = Some x ->
  probe x = false ->
  x <> DEFAULT_DB_ALIAS ->
  exists s2,
    get_slave cfg clock probe (run_actions cfg history (initial cfg)) =
      Ok DEFAULT_DB_ALIAS s2 /\
    lookup x (slaves_statistics s2) =
      Some (mkStatistics false (Some (now_disable clock + RECONNECT_TIME cfg))) /\
    (forall k, k <> x ->
               lookup k (slaves_statistics s2) = lookup k (slaves_statistics s0)) /\
    slaves s2 = rebuilt_slaves cfg (slaves_statistics s2) /\
    cycle_avoids x (slaves s2).
Proof.
  intros Hdue Hslaves Hnth Hprobe Hne.
  destruct (refresh_if_due_sound_valid cfg history clock s0 Hdue) as [Hsound _].
  rewrite Hslaves in Hsound. destruct Hsound as [_ Hall].
  destruct (Hall x (nth_error_In _ _ Hnth)) as (v & Hv & _).
  rewrite (get_slave_after_refresh _ _ _ _ _ Hdue).
  unfold probe_candidate, bind, slaves_next. rewrite Hslaves, Hnth, Hprobe.
  rewrite disable_connection_eq. simpl. rewrite Hv. cbv zeta.
  eexists. split; [reflexivity|]. simpl.
  pose proof (lookup_update_same x
                (fun _ => mkStatistics false
                            (Some (now_disable clock + RECONNECT_TIME cfg)))
                _ _ Hv) as Hv'.
  split; [exact Hv'|].
  split; [intros k Hk; now apply lookup_update_other|].
  split; [reflexivity|].
  eapply rebuilt_slaves_avoids; eauto.
Qed.

Lemma failed_replica_is_disabled_witness :
  let s0 := initial cfg_two in
  refresh_if_due cfg_two (at_time 0) (run_actions cfg_two [] (initial cfg_two)) =
    Ok tt s0 /\
  slaves s0 = Cycle ["r1"; "r2"] 0 /\
  nth_error ["r1"; "r2"] 0 = Some "r1" /\
  probe_except "r1" "r1" = false /\
  "r1" <> DEFAULT_DB_ALIAS /\
  exists s2,
    get_slave cfg_two (at_time 0) (probe_except "r1")
              (run_actions cfg_two [] (initial cfg_two)) =
      Ok DEFAULT_DB_ALIAS s2 /\
    lookup "r1" (slaves_statistics s2) =
      Some (mkStatistics false (Some (now_disable (at_time 0) + RECONNECT_TIME cfg_two))) /\
    (forall k, k <> "r1" ->
               lookup k (slaves_statistics s2) = lookup k (slaves_statistics s0)) /\
    slaves s2 = rebuilt_slaves cfg_two (slaves_statistics s2) /\
    cycle_avoids "r1" (slaves s2).
Proof.
  cbv zeta. split; [reflexivity|]. split; [reflexivity|]. split; [reflexivity|].
  split; [reflexivity|]. split; [discriminate|].
  apply (failed_replica_is_disabled cfg_two [] (at_time 0) (probe_except "r1")
           (initial cfg_two) ["r1"; "r2"] 0%nat "r1");
    try reflexivity. discriminate.
Defined.
